(** * Retrieval-augmented answering pipeline: a shallow embedding

    The development follows the Python sources module by module:
    [config.py] (the settings record), [document_loader.py] (loaders and
    the chunker), [rag_engine.py] (context assembly, confidence, sources,
    the query cycle), [memory.py] (sessions and bounded history),
    [claude_client.py] (prompt and messages of the generation call) and
    [main.py] (the chat handler).

    Conventions of the embedding:
    - Python [int] is [Z]; a Python [float] is given by a rational [Q].
      In the threshold test of the context assembly the rational stands
      for the double nearest to it, and the subtraction is rounded to
      binary64 ([fl]); the averages and the two-digit roundings are
      computed on the rationals as they are. The inputs on which a stated
      property is shown to fail are dyadic, hence exactly representable;
    - Python [str] is [string], one [ascii] per code point in 0..255;
    - [datetime] and [timedelta] are microsecond counts in [Z];
    - a [dict] used as a table is a [gmap]; iteration order is not observed
      by any function modelled here;
    - a [while] loop whose termination is in question runs on fuel and
      returns [None] when the fuel is exhausted. *)

From Stdlib Require Import QArith Qround Lqa.
From stdpp Require Import gmap strings list fin_maps pretty.

Local Open Scope Z_scope.

(** ** Python primitives used by the sources *)

Module Py.

(** Scalar values stored in metadata dictionaries. *)
Inductive pyval :=
  | PStr (s : string)
  | PInt (z : Z).

#[global] Instance pyval_eq_dec : EqDecision pyval.
Proof. solve_decision. Defined.

(** [str(v)], as used by f-string interpolation. *)
Definition str (v : pyval) : string :=
  match v with
  | PStr s => s
  | PInt z => pretty z
  end.

(** What a statement-level call hands back: [None] or an integer. *)
Inductive pyret :=
  | RNone
  | RInt (z : Z).

Definition len (s : string) : Z := Z.of_nat (String.length s).

Definition llen {A} (l : list A) : Z := Z.of_nat (length l).

(** Truthiness of a string: [if s:]. *)
Definition truthy (s : string) : bool :=
  match s with
  | EmptyString => false
  | String _ _ => true
  end.

(** Truthiness of an optional integer: [if limit:], [top_k or default]. *)
Definition truthy_int (o : option Z) : bool :=
  match o with
  | None => false
  | Some z => negb (z =? 0)
  end.

(** Index normalisation of a slice bound (step 1): a negative bound counts
    from the end, and the result is clamped to [0, n]. *)
Definition adjust_index (n i : Z) : Z :=
  if i <? 0 then Z.max (i + n) 0 else Z.min i n.

(** [s[lo:hi]] *)
Definition slice (s : string) (lo hi : Z) : string :=
  let n := len s in
  let lo' := adjust_index n lo in
  let hi' := adjust_index n hi in
  String.substring (Z.to_nat lo') (Z.to_nat (hi' - lo')) s.

(** [l[lo:]] *)
Definition slice_from {A} (l : list A) (lo : Z) : list A :=
  drop (Z.to_nat (adjust_index (llen l) lo)) l.

(** [str.isspace] on one code point below 256. *)
Definition isspace (c : Ascii.ascii) : bool :=
  let n := Ascii.N_of_ascii c in
  (((9 <=? n) && (n <=? 13)) || ((28 <=? n) && (n <=? 32))
   || (n =? 133) || (n =? 160))%N.

Fixpoint lstrip (s : string) : string :=
  match s with
  | EmptyString => EmptyString
  | String c s' => if isspace c then lstrip s' else s
  end.

Fixpoint rstrip (s : string) : string :=
  match s with
  | EmptyString => EmptyString
  | String c s' =>
      match rstrip s' with
      | EmptyString => if isspace c then EmptyString else String c EmptyString
      | r => String c r
      end
  end.

(** [s.strip()] *)
Definition strip (s : string) : string := rstrip (lstrip s).

(** Does [sub] occur in [s] at offset [i]? *)
Definition occurs_at (sub s : string) (i : Z) : bool :=
  String.eqb (String.substring (Z.to_nat i) (String.length sub) s) sub.

(** Scan the [k] candidate offsets [lo + k - 1], ..., [lo] downwards. *)
Fixpoint rfind_scan (sub s : string) (lo : Z) (k : nat) : Z :=
  match k with
  | O => -1
  | S k' =>
      if occurs_at sub s (lo + Z.of_nat k') then lo + Z.of_nat k'
      else rfind_scan sub s lo k'
  end.

(** [s.rfind(sub, lo, hi)]: the highest offset [i] with
    [lo <= i] and [i + len(sub) <= hi] at which [sub] occurs, or [-1]. *)
Definition rfind (s sub : string) (lo hi : Z) : Z :=
  let n := len s in
  let hi' := if hi >? n then n else if hi <? 0 then Z.max (hi + n) 0 else hi in
  let lo' := if lo <? 0 then Z.max (lo + n) 0 else lo in
  if hi' - lo' <? len sub then -1
  else rfind_scan sub s lo' (Z.to_nat (hi' - lo' - len sub + 1)).

(** [sep.join(parts)] *)
Fixpoint join (sep : string) (parts : list string) : string :=
  match parts with
  | [] => ""
  | [p] => p
  | p :: rest => p +:+ sep +:+ join sep rest
  end.

(** [enumerate(l, start)] *)
Fixpoint enumerate {A} (start : Z) (l : list A) : list (Z * A) :=
  match l with
  | [] => []
  | x :: l' => (start, x) :: enumerate (start + 1) l'
  end.

(** The line feed, code point 10. *)
Definition LF : string :=
  String (Ascii.Ascii false true false true false false false false) EmptyString.

End Py.

(** ** config.py *)

Module Config.

Record Settings := {
  CHUNK_SIZE : Z;
  CHUNK_OVERLAP : Z;
  TOP_K_RESULTS : Z;
  SIMILARITY_THRESHOLD : Q;
  MAX_CONVERSATION_HISTORY : Z;
  SESSION_TIMEOUT_MINUTES : Z
}.

(** The defaults written in the class body. *)
Definition settings : Settings := {|
  CHUNK_SIZE := 1000;
  CHUNK_OVERLAP := 200;
  TOP_K_RESULTS := 5;
  SIMILARITY_THRESHOLD := (7 # 10)%Q;
  MAX_CONVERSATION_HISTORY := 10;
  SESSION_TIMEOUT_MINUTES := 30
|}.

End Config.

(** ** document_loader.py *)

Module DocumentLoader.
Import Py.

Record t := {
  chunk_size : Z;
  chunk_overlap : Z
}.

(** [__init__] *)
Definition init (cfg : Config.Settings) : t := {|
  chunk_size := Config.CHUNK_SIZE cfg;
  chunk_overlap := Config.CHUNK_OVERLAP cfg
|}.

(** The boundary markers, in the order the source tries them. *)
Definition markers : list string := [". "; "! "; "? "; LF +:+ LF].

(** The [for punct in ...] loop with its [break]: the first marker that
    occurs in the window decides the cut. *)
Fixpoint snap_end (text : string) (start end_ : Z) (puncts : list string) : Z :=
  match puncts with
  | [] => end_
  | punct :: rest =>
      let last_punct := rfind text punct start end_ in
      if negb (last_punct =? -1) then last_punct + len punct
      else snap_end text start end_ rest
  end.

(** Where the window starting at [start] is cut. *)
Definition cut_end (self : t) (text : string) (start : Z) : Z :=
  let end_ := start + chunk_size self in
  if end_ <? len text then snap_end text start end_ markers else end_.

(** One pass through the body of the [while] loop: the new [start] and the
    new [chunks]. *)
Definition window_step (self : t) (text : string) (start : Z)
    (chunks : list string) : Z * list string :=
  let end_ := cut_end self text start in
  let chunk := strip (slice text start end_) in
  let chunks := if truthy chunk then chunks ++ [chunk] else chunks in
  let start := end_ - chunk_overlap self in
  let start := if start <? 0 then 0 else start in
  (start, chunks).

(** The next window start alone. *)
Definition next_start (self : t) (text : string) (start : Z) : Z :=
  fst (window_step self text start []).

(** [while start < len(text): ...] on fuel. *)
Fixpoint split_loop (fuel : nat) (self : t) (text : string) (start : Z)
    (chunks : list string) : option (list string) :=
  if start <? len text then
    match fuel with
    | O => None
    | S fuel' =>
        let '(start', chunks') := window_step self text start chunks in
        split_loop fuel' self text start' chunks'
    end
  else Some chunks.

Definition _split_text (fuel : nat) (self : t) (text : string)
    : option (list string) :=
  if len text <=? chunk_size self then Some [text]
  else split_loop fuel self text 0 [].

(** A text segment as the loaders build it: the ['text'] item and the
    remaining items of the dictionary. *)
Record part := {
  text : string;
  attrs : gmap string pyval
}.

(** A loaded document: ['content'], ['type'] and the loader's total. *)
Record document := {
  content : list part;
  type : string;
  total : option (string * Z)
}.

(** A chunk ready for the vector store. *)
Record chunk := {
  chunk_content : string;
  chunk_metadata : gmap string pyval
}.

(** The loaders, applied to what the external parsers hand over: the
    extracted text of every page, the text of every paragraph, the whole
    file, or the column names and the rendered [(column, value)] items of
    every row (rows indexed from 0). *)
Definition _load_pdf (pages : list string) : document := {|
  content :=
    omap (λ '(page_num, t),
            if truthy (strip t)
            then Some {| text := t; attrs := {[ "page" := PInt page_num ]} |}
            else None)
         (enumerate 1 pages);
  type := "pdf";
  total := Some ("total_pages", llen pages)
|}.

Definition _load_docx (paragraphs : list string) : document := {|
  content :=
    omap (λ '(i, t),
            if truthy (strip t)
            then Some {| text := t; attrs := {[ "paragraph" := PInt (i + 1) ]} |}
            else None)
         (enumerate 0 paragraphs);
  type := "docx";
  total := Some ("total_paragraphs", llen paragraphs)
|}.

Definition _load_txt (t : string) : document := {|
  content := [ {| text := t; attrs := {[ "section" := PInt 1 ]} |} ];
  type := "txt";
  total := None
|}.

Definition _load_csv (columns : list string)
    (rows : list (list (string * string))) : document := {|
  content :=
    {| text := "CSV Headers: " +:+ join ", " columns;
       attrs := {[ "row" := PInt 0 ]} |}
    :: map (λ '(idx, row),
              {| text := join " | " (map (λ '(col, val), col +:+ ": " +:+ val) row);
                 attrs := {[ "row" := PInt (idx + 1) ]} |})
           (enumerate 0 rows);
  type := "csv";
  total := Some ("total_rows", llen rows)
|}.

Definition _load_markdown (t : string) : document := {|
  content := [ {| text := t; attrs := {[ "section" := PInt 1 ]} |} ];
  type := "markdown";
  total := None
|}.

(** The documents [load_document] can return. *)
Inductive loaded : document → Prop :=
  | loaded_pdf pages : loaded (_load_pdf pages)
  | loaded_docx paragraphs : loaded (_load_docx paragraphs)
  | loaded_txt t : loaded (_load_txt t)
  | loaded_csv columns rows : loaded (_load_csv columns rows)
  | loaded_markdown t : loaded (_load_markdown t).

(** The metadata literal: the three fixed items, then the segment's other
    items, which win on a key clash. *)
Definition make_metadata (filename doc_type : string) (i : Z) (p : part)
    : gmap string pyval :=
  delete "text" (attrs p)
  ∪ <["source" := PStr filename]>
      (<["type" := PStr doc_type]> (<["chunk_index" := PInt i]> ∅)).

(** The inner [for i, chunk_text in enumerate(text_chunks)] loop. *)
Definition append_chunks (filename doc_type : string) (p : part)
    (text_chunks : list string) (chunks : list chunk) : list chunk :=
  fold_left
    (λ chunks '(i, chunk_text),
       chunks ++ [ {| chunk_content := chunk_text;
                      chunk_metadata := make_metadata filename doc_type i p |} ])
    (enumerate 0 text_chunks) chunks.

(** The outer [for part in document['content']] loop. *)
Fixpoint chunk_parts (fuel : nat) (self : t) (filename doc_type : string)
    (parts : list part) (chunks : list chunk) : option (list chunk) :=
  match parts with
  | [] => Some chunks
  | p :: rest =>
      match _split_text fuel self (text p) with
      | None => None
      | Some text_chunks =>
          chunk_parts fuel self filename doc_type rest
            (append_chunks filename doc_type p text_chunks chunks)
      end
  end.

Definition chunk_document (fuel : nat) (self : t) (doc : document)
    (filename : string) : option (list chunk) :=
  chunk_parts fuel self filename (type doc) (content doc) [].

End DocumentLoader.

(** ** rag_engine.py *)

Module RAGEngine.
Import Py.

(** One entry of the search results. *)
Record hit := {
  content : string;
  metadata : gmap string pyval;
  distance : Q;
  id : string
}.

(** [a < b] on numbers. *)
Definition lt (a b : Q) : bool :=
  match (a ?= b)%Q with
  | Lt => true
  | _ => false
  end.

(** Round half to even, to an integer. *)
Definition round_half_even (x : Q) : Z :=
  let f := Qfloor x in
  match (x - inject_Z f ?= 1 # 2)%Q with
  | Lt => f
  | Gt => f + 1
  | Eq => if Z.even f then f else f + 1
  end.

(** [round(x, 2)] *)
Definition round2 (x : Q) : Q :=
  (inject_Z (round_half_even (x * 100)) / 100)%Q.

(** [sum(...)], starting from 0. *)
Definition sum (l : list Q) : Q := fold_left Qplus l 0%Q.

Definition source_of (doc : hit) : pyval :=
  default (PStr "Unknown") (metadata doc !! "source").

(** The f-string of one kept hit. *)
Definition block (i : Z) (doc : hit) : string :=
  "[Source " +:+ pretty i +:+ ": " +:+ str (source_of doc) +:+ "]" +:+ LF
  +:+ content doc +:+ LF.

(** [2 ** z] for an integer [z] of either sign. *)
Definition pow2 (z : Z) : Q :=
  if 0 <=? z then inject_Z (2 ^ z) else (1 # Z.to_pos (2 ^ (- z)))%Q.

(** The [e] with [2 ** e <= a < 2 ** (e + 1)], for a positive [a]. *)
Definition ilog2 (a : Q) : Z :=
  let k := Z.log2 (Qnum a) - Z.log2 (Z.pos (Qden a)) in
  if Qle_bool (pow2 k) a then k else k - 1.

(** The binary64 number nearest to [x], ties to the even significand:
    53 significant bits, exponents from -1022 up (below that the
    spacing stays [2 ** -1074]). Overflow to infinity is not modelled. *)
Definition fl (x : Q) : Q :=
  match (x ?= 0)%Q with
  | Eq => 0%Q
  | c =>
      let a := match c with Lt => (- x)%Q | _ => x end in
      let e := Z.max (ilog2 a) (-1022) in
      let ulp := pow2 (e - 52) in
      let m := inject_Z (round_half_even (a / ulp)) in
      Qred (match c with Lt => - (m * ulp) | _ => m * ulp end)%Q
  end.

(** The test guarding [context_parts.append]: the distance and the
    threshold as doubles, and the float subtraction [1 - threshold]. *)
Definition passes (cfg : Config.Settings) (doc : hit) : bool :=
  lt (fl (distance doc)) (fl (1 - fl (Config.SIMILARITY_THRESHOLD cfg)))%Q.

(** The [for i, doc in enumerate(retrieved_docs, 1)] loop. *)
Definition context_parts (cfg : Config.Settings) (retrieved_docs : list hit)
    : list string :=
  fold_left
    (λ parts '(i, doc), if passes cfg doc then parts ++ [block i doc] else parts)
    (enumerate 1 retrieved_docs) [].

Definition separator : string := LF +:+ "---" +:+ LF.

Definition _build_context (cfg : Config.Settings) (retrieved_docs : list hit)
    : string :=
  match retrieved_docs with
  | [] => ""
  | _ => join separator (context_parts cfg retrieved_docs)
  end.

Record source_info := {
  source : pyval;
  relevance : Q;
  page : option pyval;
  section : option pyval
}.

(** The loop of [_format_sources], with its [seen_sources] set. *)
Fixpoint format_loop (docs : list hit) (sources : list source_info)
    (seen_sources : list pyval) : list source_info :=
  match docs with
  | [] => sources
  | doc :: rest =>
      let source_name := source_of doc in
      if bool_decide (source_name ∈ seen_sources)
      then format_loop rest sources seen_sources
      else format_loop rest
             (sources ++ [ {| source := source_name;
                              relevance := round2 (1 - distance doc);
                              page := metadata doc !! "page";
                              section := metadata doc !! "section" |} ])
             (source_name :: seen_sources)
  end.

Definition _format_sources (retrieved_docs : list hit) : list source_info :=
  format_loop retrieved_docs [] [].

Definition _calculate_confidence (retrieved_docs : list hit) : Q :=
  match retrieved_docs with
  | [] => 0%Q
  | _ =>
      let top_results := take 3 retrieved_docs in
      let avg_similarity :=
        (sum (map (λ doc, 1 - distance doc) top_results)
         / inject_Z (llen top_results))%Q in
      round2 avg_similarity
  end.

(** A raised exception: its class and its message. *)
Record pyexc := {
  exc_class : string;
  exc_message : string
}.

(** The outcome of a call that may raise. *)
Inductive outcome (A : Type) :=
  | Return (a : A)
  | Raise (e : pyexc).
Arguments Return {A} a.
Arguments Raise {A} e.

(** What [vector_store.search] returns. *)
Record search_result := {
  results : list hit;
  sr_query : string;
  sr_total : Z
}.

(** What [claude_client.generate_response] returns. *)
Record claude_response := {
  response : string;
  model : string;
  usage : Z * Z;
  stop_reason : string
}.

Record query_result := {
  answer : string;
  sources : list source_info;
  retrieved_chunks : Z;
  response_time : Q;
  model_used : string;
  tokens_used : Z * Z;
  confidence : Q
}.

(** Log records: level and message. *)
Inductive level := INFO | WARNING | ERROR.
Definition log := list (level * string).

(** [top_k or settings.TOP_K_RESULTS] *)
Definition effective_top_k (cfg : Config.Settings) (top_k : option Z) : Z :=
  if truthy_int top_k then default 0 top_k else Config.TOP_K_RESULTS cfg.

Section Query.

(** The two collaborators of the engine and the two clock readings of one
    call. *)
Variable search :
  string → Z → option (gmap string pyval) → outcome search_result.
Variable generate_response :
  string → string → option (list (string * string)) → outcome claude_response.
Variables start_time end_time : Q.

(** [query]: the outcome and the log records written on the way. The
    [except Exception as e] handler logs and re-raises [e]. *)
Definition query (cfg : Config.Settings) (user_query : string)
    (conversation_history : option (list (string * string)))
    (filter_metadata : option (gmap string pyval)) (top_k : option Z)
    : outcome query_result * log :=
  let log1 :=
    [(INFO, "Retrieving documents for query: " +:+ slice user_query 0 100)] in
  match search user_query (effective_top_k cfg top_k) filter_metadata with
  | Raise e =>
      (Raise e, log1 ++ [(ERROR, "Error in RAG query: " +:+ exc_message e)])
  | Return retrieval_results =>
      let retrieved_docs := results retrieval_results in
      let context := _build_context cfg retrieved_docs in
      let log2 := log1 ++ [(INFO, "Generating response with Claude")] in
      match generate_response user_query context conversation_history with
      | Raise e =>
          (Raise e, log2 ++ [(ERROR, "Error in RAG query: " +:+ exc_message e)])
      | Return claude_response =>
          let total_time := (end_time - start_time)%Q in
          let sources := _format_sources retrieved_docs in
          (Return {| answer := response claude_response;
                     sources := sources;
                     retrieved_chunks := llen retrieved_docs;
                     response_time := round2 total_time;
                     model_used := model claude_response;
                     tokens_used := usage claude_response;
                     confidence := _calculate_confidence retrieved_docs |},
           log2)
      end
  end.

End Query.

End RAGEngine.

(** ** memory.py *)

Module ConversationMemory.
Import Py.

(** A session record. The lazily created record of [add_message] has
    neither a ['user_id'] nor a ['metadata'] item: an absent item is the
    outer [None]. *)
Record session := {
  session_id : string;
  user_id : option (option string);
  created_at : Z;
  last_activity : Z;
  is_active : bool;
  session_metadata : option (gmap string pyval)
}.

Record message := {
  role : string;
  content : string;
  timestamp : Z;
  metadata : gmap string pyval
}.

(** The two tables of the manager. [message_history] is a
    [defaultdict(list)]: indexing an absent key stores an empty list under
    it, [get] and [in] do not. *)
Record t := {
  sessions : gmap string session;
  message_history : gmap string (list message)
}.

Definition init : t := {| sessions := ∅; message_history := ∅ |}.

Definition log := list (RAGEngine.level * string).

Definition set_last_activity (now : Z) (s : session) : session := {|
  session_id := session_id s;
  user_id := user_id s;
  created_at := created_at s;
  last_activity := now;
  is_active := is_active s;
  session_metadata := session_metadata s
|}.

Definition set_inactive (s : session) : session := {|
  session_id := session_id s;
  user_id := user_id s;
  created_at := created_at s;
  last_activity := last_activity s;
  is_active := false;
  session_metadata := session_metadata s
|}.

(** [create_session]; [fresh] is the identifier drawn by [uuid4], [now] the
    successive clock readings of the call. *)
Definition create_session (fresh : string) (now : nat → Z)
    (uid : option string) (self : t) : string * t * log :=
  (fresh,
   {| sessions :=
        <[fresh := {| session_id := fresh;
                      user_id := Some uid;
                      created_at := now 0%nat;
                      last_activity := now 1%nat;
                      is_active := true;
                      session_metadata := Some ∅ |}]> (sessions self);
      message_history := message_history self |},
   [(RAGEngine.INFO, "Created session: " +:+ fresh)]).

Definition get_session (sid : string) (self : t) : option session * t :=
  (sessions self !! sid, self).

(** The trimming statement at the end of [add_message]. *)
Definition trim (max_history : Z) (history : list message) : list message :=
  if llen history >? max_history * 2
  then slice_from history (- max_history * 2)
  else history.

(** [add_message]; [now k] is the clock reading at the [k]-th textual
    occurrence of [datetime.now()] in the body. *)
Definition add_message (cfg : Config.Settings) (now : nat → Z)
    (sid role_ content_ : string) (metadata_ : option (gmap string pyval))
    (self : t) : t * log :=
  let '(sessions1, log1) :=
    match sessions self !! sid with
    | Some _ => (sessions self, [])
    | None =>
        (<[sid := {| session_id := sid;
                     user_id := None;
                     created_at := now 0%nat;
                     last_activity := now 1%nat;
                     is_active := true;
                     session_metadata := None |}]> (sessions self),
         [(RAGEngine.WARNING,
           "Session " +:+ sid +:+ " not found, creating new session")])
    end in
  let msg := {| role := role_;
                content := content_;
                timestamp := now 2%nat;
                metadata := default ∅ metadata_ |} in
  let history := default [] (message_history self !! sid) ++ [msg] in
  let sessions2 := alter (set_last_activity (now 3%nat)) sid sessions1 in
  let max_history := Config.MAX_CONVERSATION_HISTORY cfg in
  ({| sessions := sessions2;
      message_history := <[sid := trim max_history history]> (message_history self) |},
   log1).

(** [get_history]: the answer and the (untouched) manager. *)
Definition get_history (sid : string) (limit : option Z) (self : t)
    : list message * t :=
  let history := default [] (message_history self !! sid) in
  if truthy_int limit
  then (slice_from history (- default 0 limit), self)
  else (history, self).

Definition get_formatted_history (sid : string) (limit : option Z) (self : t)
    : list (string * string) * t :=
  let '(history, self) := get_history sid limit self in
  (fold_left (λ formatted msg, formatted ++ [(role msg, content msg)]) history [],
   self).

Definition clear_history (sid : string) (self : t) : t * log :=
  match message_history self !! sid with
  | Some _ =>
      ({| sessions := sessions self;
          message_history := <[sid := []]> (message_history self) |},
       [(RAGEngine.INFO, "Cleared history for session: " +:+ sid)])
  | None => (self, [])
  end.

Definition end_session (sid : string) (self : t) : t * log :=
  match sessions self !! sid with
  | Some _ =>
      ({| sessions := alter set_inactive sid (sessions self);
          message_history := message_history self |},
       [(RAGEngine.INFO, "Ended session: " +:+ sid)])
  | None => (self, [])
  end.

(** [timedelta(minutes=m)] in microseconds. *)
Definition minutes (m : Z) : Z := m * 60000000.

(** The test of the first loop of the sweep. *)
Definition expired (cfg : Config.Settings) (now : Z) (s : session) : bool :=
  now - last_activity s >? minutes (Config.SESSION_TIMEOUT_MINUTES cfg).

(** The first loop: the identifiers collected in [expired_sessions]. *)
Definition expired_sessions (cfg : Config.Settings) (now : Z) (self : t)
    : list string :=
  fold_left
    (λ acc '(sid, s), if expired cfg now s then acc ++ [sid] else acc)
    (map_to_list (sessions self)) [].

(** The body of the second loop. *)
Definition remove_session (self : t) (sid : string) : t := {|
  sessions := delete sid (sessions self);
  message_history := delete sid (message_history self)
|}.

(** [cleanup_expired_sessions]: the function has no [return] statement, so
    the call evaluates to [None]; the count goes to the log only. *)
Definition cleanup_expired_sessions (cfg : Config.Settings) (now : Z)
    (self : t) : pyret * t * log :=
  let ids := expired_sessions cfg now self in
  let self' := fold_left remove_session ids self in
  (RNone, self',
   match ids with
   | [] => []
   | _ => [(RAGEngine.INFO,
            "Cleaned up " +:+ pretty (llen ids) +:+ " expired sessions")]
   end).

(** What [get_session_stats] reports for a known session. *)
Record session_stats := {
  stats_session_id : string;
  total_messages : Z;
  user_messages : Z;
  assistant_messages : Z;
  stats_created_at : Z;
  stats_last_activity : Z;
  duration_minutes : Q;
  stats_is_active : bool
}.

(** [get_session_stats]; [None] stands for the empty dictionary returned
    for an unknown session. *)
Definition get_session_stats (sid : string) (self : t)
    : option session_stats * t :=
  match sessions self !! sid with
  | None => (None, self)
  | Some s =>
      let history := default [] (message_history self !! sid) in
      let user_msgs := List.filter (λ m, String.eqb (role m) "user") history in
      let assistant_msgs :=
        List.filter (λ m, String.eqb (role m) "assistant") history in
      (Some {| stats_session_id := sid;
               total_messages := llen history;
               user_messages := llen user_msgs;
               assistant_messages := llen assistant_msgs;
               stats_created_at := created_at s;
               stats_last_activity := last_activity s;
               duration_minutes :=
                 (inject_Z (last_activity s - created_at s)
                  / 1000000 / 60)%Q;
               stats_is_active := is_active s |},
       self)
  end.

(** [get_all_active_sessions]; the order of the answer is that of the
    table, which this embedding does not fix. *)
Definition get_all_active_sessions (self : t) : list string * t :=
  (omap (λ '(sid, s), if is_active s then Some sid else None)
        (map_to_list (sessions self)),
   self).

End ConversationMemory.

(** ** claude_client.py *)

Module ClaudeClient.
Import Py.

Record t := {
  model : string;
  max_tokens : Z;
  temperature : Q
}.

Definition base_prompt : string :=
  join LF
    ["You are an AI assistant for a business, helping customers with their questions and concerns.";
     "";
     "Your responsibilities:";
     "- Provide accurate, helpful answers based on the company's knowledge base";
     "- Be professional, friendly, and concise";
     "- If you don't know something, admit it and suggest contacting human support";
     "- Always prioritize customer satisfaction";
     "";
     "Guidelines:";
     "- Use the provided context to answer questions accurately";
     "- Don't make up information not in the context";
     "- Be conversational but professional";
     "- Keep responses focused and relevant";
     ""].

Definition context_prompt (context : string) : string :=
  join LF ["";
     "RELEVANT INFORMATION FROM KNOWLEDGE BASE:";
     ""] +:+ context +:+ join LF ["";
     "";
     "Use the above information to answer the customer's question. If the information doesn't fully answer their question, let them know what you can help with based on available information.";
     ""].

(** [_build_system_prompt] *)
Definition _build_system_prompt (context : option string) : string :=
  match context with
  | Some c => if truthy c then base_prompt +:+ context_prompt c else base_prompt
  | None => base_prompt
  end.

(** A content block of the reply: its text, when it has one. *)
Definition block := option string.

(** What the messages endpoint answers. *)
Record api_response := {
  api_content : list block;
  api_model : string;
  input_tokens : Z;
  output_tokens : Z;
  api_stop_reason : string
}.

(** The [messages] list: the last ten entries of the history, then the
    user's message. *)
Definition build_messages (user_message : string)
    (conversation_history : option (list (string * string)))
    : list (string * string) :=
  let messages :=
    match conversation_history with
    | Some (m :: h) =>
        fold_left (λ messages '(r, c), messages ++ [(r, c)])
                  (slice_from (m :: h) (-10)) []
    | _ => []
    end in
  messages ++ [("user", user_message)].

(** The loop over the reply's blocks. *)
Definition response_text (blocks : list block) : string :=
  fold_left (λ acc b, match b with Some t => acc +:+ t | None => acc end)
            blocks "".

Section Generate.

(** The messages endpoint: model, token limit, temperature, system prompt
    and messages in, a reply or a raised exception out. *)
Variable create :
  string → Z → Q → string → list (string * string)
  → RAGEngine.outcome api_response.

Definition generate_response (self : t) (user_message : string)
    (context : option string)
    (conversation_history : option (list (string * string)))
    (system_prompt : option string)
    : RAGEngine.outcome RAGEngine.claude_response * RAGEngine.log :=
  let system_prompt :=
    match system_prompt with
    | None => _build_system_prompt context
    | Some p => p
    end in
  let messages := build_messages user_message conversation_history in
  match create (model self) (max_tokens self) (temperature self)
               system_prompt messages with
  | RAGEngine.Raise e =>
      (RAGEngine.Raise e,
       [(RAGEngine.ERROR,
         "Error generating Claude response: " +:+ RAGEngine.exc_message e)])
  | RAGEngine.Return reply =>
      (RAGEngine.Return
         {| RAGEngine.response := response_text (api_content reply);
            RAGEngine.model := api_model reply;
            RAGEngine.usage := (input_tokens reply, output_tokens reply);
            RAGEngine.stop_reason := api_stop_reason reply |},
       [(RAGEngine.INFO,
         "Generated response (tokens: " +:+ pretty (output_tokens reply)
         +:+ ")")])
  end.

End Generate.

End ClaudeClient.

(** ** main.py *)

Module Main.
Import Py.

(** The body of a chat request, after validation; its [context] item,
    which the handler never reads, is left out. *)
Record ChatRequest := {
  message : string;
  session_id : option string;
  user_id : option string
}.

Record ChatResponse := {
  reply_message : string;
  reply_session_id : string;
  reply_sources : list RAGEngine.source_info;
  reply_confidence : Q;
  response_time : Q;
  chunks_retrieved : Z;
  reply_model : string
}.

(** [HTTPException(status_code=..., detail=...)] *)
Record HTTPException := {
  status_code : Z;
  detail : string
}.

(** The session the request is served in: the one it names when that is
    a non-empty identifier of a known session, a newly created one
    otherwise. *)
Definition resolve_session (fresh : string) (now : nat → Z)
    (request : ChatRequest) (self : ConversationMemory.t)
    : string * ConversationMemory.t * ConversationMemory.log :=
  match session_id request with
  | Some sid =>
      if truthy sid then
        match fst (ConversationMemory.get_session sid self) with
        | Some _ => (sid, self, [])
        | None => ConversationMemory.create_session fresh now (user_id request) self
        end
      else ConversationMemory.create_session fresh now (user_id request) self
  | None => ConversationMemory.create_session fresh now (user_id request) self
  end.

Section Chat.

(** The collaborators of the engine, the identifier [uuid4] would draw,
    the clocks of the three memory calls and of the query, and the way the
    nested values of the assistant's metadata are kept as scalars. *)
Variable search :
  string → Z → option (gmap string pyval)
  → RAGEngine.outcome RAGEngine.search_result.
Variable generate_response :
  string → string → option (list (string * string))
  → RAGEngine.outcome RAGEngine.claude_response.
Variable fresh : string.
Variables now_create now_user now_assistant : nat → Z.
Variables start_time end_time : Q.
Variable flatten : list RAGEngine.source_info → Z * Z → gmap string pyval.

(** The [/api/chat] handler: the answer or the HTTP error, the memory
    afterwards and the log records. *)
Definition chat (cfg : Config.Settings) (request : ChatRequest)
    (self : ConversationMemory.t)
    : (ChatResponse + HTTPException) * ConversationMemory.t
      * ConversationMemory.log :=
  let '(sid, self1, log1) := resolve_session fresh now_create request self in
  let '(history, self2) :=
    ConversationMemory.get_formatted_history sid (Some 10) self1 in
  let '(self3, log3) :=
    ConversationMemory.add_message cfg now_user sid "user" (message request)
      None self2 in
  match RAGEngine.query search generate_response start_time end_time cfg
          (message request) (Some history) None None with
  | (RAGEngine.Raise e, logq) =>
      (inr {| status_code := 500; detail := RAGEngine.exc_message e |},
       self3,
       log1 ++ log3 ++ logq
       ++ [(RAGEngine.ERROR, "Chat error: " +:+ RAGEngine.exc_message e)])
  | (RAGEngine.Return result, logq) =>
      let '(self4, log4) :=
        ConversationMemory.add_message cfg now_assistant sid "assistant"
          (RAGEngine.answer result)
          (Some (flatten (RAGEngine.sources result)
                         (RAGEngine.tokens_used result)))
          self3 in
      (inl {| reply_message := RAGEngine.answer result;
              reply_session_id := sid;
              reply_sources := RAGEngine.sources result;
              reply_confidence := RAGEngine.confidence result;
              response_time := RAGEngine.response_time result;
              chunks_retrieved := RAGEngine.retrieved_chunks result;
              reply_model := RAGEngine.model_used result |},
       self4,
       log1 ++ log3 ++ logq ++ log4)
  end.

End Chat.

End Main.

(** ** Notions used to state the properties *)

Module Aux.
Import Py.

(** [s * n] on strings, to write long inputs. *)
Fixpoint repeat_str (s : string) (n : nat) : string :=
  match n with
  | O => ""
  | S n' => s +:+ repeat_str s n'
  end.

(** The chunks one segment contributes, given the pieces of its text:
    piece [i] with the metadata built for index [i]. *)
Definition segment_chunks (filename doc_type : string)
    (p : DocumentLoader.part) (pieces : list string)
    : list DocumentLoader.chunk :=
  map (λ '(i, piece),
         {| DocumentLoader.chunk_content := piece;
            DocumentLoader.chunk_metadata :=
              DocumentLoader.make_metadata filename doc_type i p |})
      (enumerate 0 pieces).

(** [similarity = 1 - distance] *)
Definition similarity (doc : RAGEngine.hit) : Q :=
  (1 - RAGEngine.distance doc)%Q.

(** The cutoff in the specification's words: keep a hit when its
    similarity is at least the threshold. *)
Definition spec_keeps (cfg : Config.Settings) (doc : RAGEngine.hit) : bool :=
  Qle_bool (Config.SIMILARITY_THRESHOLD cfg) (similarity doc).

(** The blocks of the hits that pass, each with its rank in the input. *)
Definition ranked_blocks (cfg : Config.Settings) (docs : list RAGEngine.hit)
    : list string :=
  map (λ '(i, doc), RAGEngine.block i doc)
      (List.filter (λ '(i, doc), RAGEngine.passes cfg doc) (enumerate 1 docs)).

(** Settings with another similarity threshold. *)
Definition with_threshold (cfg : Config.Settings) (threshold : Q)
    : Config.Settings := {|
  Config.CHUNK_SIZE := Config.CHUNK_SIZE cfg;
  Config.CHUNK_OVERLAP := Config.CHUNK_OVERLAP cfg;
  Config.TOP_K_RESULTS := Config.TOP_K_RESULTS cfg;
  Config.SIMILARITY_THRESHOLD := threshold;
  Config.MAX_CONVERSATION_HISTORY := Config.MAX_CONVERSATION_HISTORY cfg;
  Config.SESSION_TIMEOUT_MINUTES := Config.SESSION_TIMEOUT_MINUTES cfg
|}.

(** Settings with another history length. *)
Definition with_max_history (cfg : Config.Settings) (n : Z)
    : Config.Settings := {|
  Config.CHUNK_SIZE := Config.CHUNK_SIZE cfg;
  Config.CHUNK_OVERLAP := Config.CHUNK_OVERLAP cfg;
  Config.TOP_K_RESULTS := Config.TOP_K_RESULTS cfg;
  Config.SIMILARITY_THRESHOLD := Config.SIMILARITY_THRESHOLD cfg;
  Config.MAX_CONVERSATION_HISTORY := n;
  Config.SESSION_TIMEOUT_MINUTES := Config.SESSION_TIMEOUT_MINUTES cfg
|}.

(** A hit from source [src] at distance [d]. *)
Definition hit_at (src body : string) (d : Q) : RAGEngine.hit := {|
  RAGEngine.content := body;
  RAGEngine.metadata := {[ "source" := PStr src ]};
  RAGEngine.distance := d;
  RAGEngine.id := src
|}.

(** The last [k] elements of a list. *)
Definition lastn {A} (k : nat) (l : list A) : list A :=
  drop (length l - k) l.

(** One [add_message] call on a session: its clock and its arguments. *)
Record append := {
  a_now : nat → Z;
  a_role : string;
  a_content : string;
  a_metadata : option (gmap string pyval)
}.

(** The message such a call stores. *)
Definition message_of (a : append) : ConversationMemory.message := {|
  ConversationMemory.role := a_role a;
  ConversationMemory.content := a_content a;
  ConversationMemory.timestamp := a_now a 2%nat;
  ConversationMemory.metadata := default ∅ (a_metadata a)
|}.

(** A sequence of [add_message] calls on one session. *)
Definition append_all (cfg : Config.Settings) (sid : string)
    (calls : list append) (self : ConversationMemory.t) : ConversationMemory.t :=
  fold_left
    (λ self a,
       fst (ConversationMemory.add_message cfg (a_now a) sid (a_role a)
              (a_content a) (a_metadata a) self))
    calls self.

(** The stored history of a session ([[]] when there is none). *)
Definition stored (sid : string) (self : ConversationMemory.t)
    : list ConversationMemory.message :=
  default [] (ConversationMemory.message_history self !! sid).

(** The entry [_format_sources] builds for a hit. *)
Definition source_entry (doc : RAGEngine.hit) : RAGEngine.source_info := {|
  RAGEngine.source := RAGEngine.source_of doc;
  RAGEngine.relevance := RAGEngine.round2 (1 - RAGEngine.distance doc);
  RAGEngine.page := RAGEngine.metadata doc !! "page";
  RAGEngine.section := RAGEngine.metadata doc !! "section"
|}.

(** The calls that change the memory. *)
Inductive operation :=
  | Create (fresh : string) (now : nat → Z) (uid : option string)
  | Add (now : nat → Z) (sid role content : string)
        (metadata : option (gmap string pyval))
  | Clear (sid : string)
  | Finish (sid : string)
  | Sweep (now : Z).

Definition apply_operation (cfg : Config.Settings) (self : ConversationMemory.t)
    (op : operation) : ConversationMemory.t :=
  match op with
  | Create fresh now uid =>
      (ConversationMemory.create_session fresh now uid self).1.2
  | Add now sid role content metadata =>
      (ConversationMemory.add_message cfg now sid role content metadata self).1
  | Clear sid => (ConversationMemory.clear_history sid self).1
  | Finish sid => (ConversationMemory.end_session sid self).1
  | Sweep now => (ConversationMemory.cleanup_expired_sessions cfg now self).1.2
  end.

(** A run of such calls, from left to right. *)
Definition run (cfg : Config.Settings) (ops : list operation)
    (self : ConversationMemory.t) : ConversationMemory.t :=
  fold_left (apply_operation cfg) ops self.

(** Every stored history belongs to a session record. *)
Definition no_orphan_history (self : ConversationMemory.t) : Prop :=
  ∀ sid, is_Some (ConversationMemory.message_history self !! sid)
         → is_Some (ConversationMemory.sessions self !! sid).

(** No stored history is longer than [bound]. *)
Definition histories_within (bound : nat) (self : ConversationMemory.t) : Prop :=
  ∀ sid history,
    ConversationMemory.message_history self !! sid = Some history
    → (length history ≤ bound)%nat.

(** The history the chat handler hands to the engine: the last ten stored
    messages of the session, read before the new message is stored. *)
Definition prior_turns (sid : string) (self : ConversationMemory.t)
    : list (string * string) :=
  map (λ msg, (ConversationMemory.role msg, ConversationMemory.content msg))
      (lastn 10 (stored sid self)).

End Aux.

(** * Properties *)

(** ** The chunker *)

Section Chunker.
Import Py DocumentLoader Aux.

Lemma window_step_start self text start chunks :
  fst (window_step self text start chunks) = next_start self text start.
Proof. reflexivity. Qed.

(** The loop, one pass unfolded. *)
Lemma split_loop_unfold fuel self text start chunks :
  split_loop fuel self text start chunks =
  if start <? len text then
    match fuel with
    | O => None
    | S fuel' =>
        split_loop fuel' self text (next_start self text start)
          (snd (window_step self text start chunks))
    end
  else Some chunks.
Proof. destruct fuel; reflexivity. Qed.

(** A window whose successor is itself is never left. *)
Lemma split_loop_stuck self text start :
  start < len text →
  next_start self text start = start →
  ∀ fuel chunks, split_loop fuel self text start chunks = None.
Proof.
  intros Hlt Hfix fuel. apply Z.ltb_lt in Hlt.
  induction fuel as [|fuel IH]; intros chunks;
    rewrite split_loop_unfold, Hlt; [done|].
  rewrite Hfix. apply IH.
Qed.

(** When every window start in range is followed by a strictly greater
    one, the loop is done within [len text] passes. *)
Lemma split_loop_advances self text :
  (∀ s, 0 ≤ s < len text → s < next_start self text s) →
  ∀ fuel start chunks,
    0 ≤ start →
    len text - start ≤ Z.of_nat fuel →
    is_Some (split_loop fuel self text start chunks).
Proof.
  intros Hadv fuel.
  induction fuel as [|fuel IH]; intros start chunks H0 Hf;
    rewrite split_loop_unfold;
    (destruct (start <? len text) eqn:E; [apply Z.ltb_lt in E|done]).
  - lia.
  - specialize (Hadv start (conj H0 E)). apply IH; lia.
Qed.

(** C1. The split does not terminate on every text: under the default
    settings (size 1000, overlap 200, so overlap < size), on a text that
    opens with a short sentence followed by 1200 letters, the first window
    is cut right after the sentence, at offset 4; the next window start is
    4 - 200 clamped to 0, which is the previous start again, and the loop
    runs out of any amount of fuel. *)
Theorem split_text_stalls_after_early_boundary :
  let self := init Config.settings in
  let text := "Hi. " +:+ repeat_str "a" 1200 in
  chunk_overlap self < chunk_size self ∧
  cut_end self text 0 = 4 ∧
  next_start self text 0 = 0 ∧
  ∀ fuel, _split_text fuel self text = None.
Proof.
  intros self text.
  assert (Hnext : next_start self text 0 = 0) by (vm_compute; reflexivity).
  assert (Hlen : len text = 1204) by (vm_compute; reflexivity).
  split; [reflexivity|].
  split; [vm_compute; reflexivity|].
  split; [exact Hnext|].
  intros fuel. unfold _split_text. rewrite Hlen.
  change (1204 <=? chunk_size self) with false. cbv iota.
  apply split_loop_stuck; [rewrite Hlen; reflexivity | exact Hnext].
Qed.

(** The same stall away from offset 0 and with a small window: size 5,
    overlap 2, the window at 1 is cut at 3 and followed by the window
    at 1. *)
Lemma split_text_stalls_small :
  let self := {| chunk_size := 5; chunk_overlap := 2 |} in
  let text := "A. bbbbbbbb" in
  next_start self text 0 = 1 ∧
  cut_end self text 1 = 3 ∧
  next_start self text 1 = 1 ∧
  ∀ fuel, _split_text fuel self text = None.
Proof.
  intros self text. do 3 (split; [reflexivity|]).
  intros [|fuel]; [reflexivity|].
  unfold _split_text.
  replace (len text <=? chunk_size self) with false by reflexivity.
  rewrite split_loop_unfold.
  replace (0 <? len text) with true by reflexivity.
  replace (next_start self text 0) with 1 by reflexivity.
  apply split_loop_stuck; reflexivity.
Qed.

(** When every cut lands more than [overlap] past its window start, the
    loop returns: the stall needs a cut within [overlap] of the start. *)
Lemma split_loop_returns_when_cut_clears_overlap self text :
  (∀ s, 0 ≤ s < len text → s + chunk_overlap self < cut_end self text s) →
  is_Some (split_loop (Z.to_nat (len text)) self text 0 []).
Proof.
  intros Hcut. apply split_loop_advances; [|lia|lia].
  intros s Hs. specialize (Hcut s Hs).
  unfold next_start, window_step. cbn [fst].
  destruct (cut_end self text s - chunk_overlap self <? 0) eqn:E.
  - apply Z.ltb_lt in E. lia.
  - lia.
Qed.

(** C8. For the empty text the split returns one chunk, the empty string:
    the early return for a text no longer than the chunk size hands the
    text back as it is, without the emptiness test of the loop. *)
Theorem split_text_empty fuel self :
  0 ≤ chunk_size self →
  _split_text fuel self "" = Some [""].
Proof.
  intros Hsize. unfold _split_text. change (len "") with 0.
  apply Z.leb_le in Hsize. by rewrite Hsize.
Qed.

Lemma split_text_empty_default :
  0 ≤ chunk_size (init Config.settings) ∧
  _split_text 0 (init Config.settings) "" = Some [""].
Proof.
  split; [vm_compute; discriminate|].
  apply (split_text_empty 0 (init Config.settings)). vm_compute; discriminate.
Defined.

(** The loop itself drops a chunk that is empty after stripping: a long
    blank text yields no chunk. *)
Lemma split_text_blank_long :
  _split_text 10 {| chunk_size := 5; chunk_overlap := 2 |} "         " = Some [].
Proof. reflexivity. Qed.

End Chunker.

(** ** Loops that append *)

Section Appending.
Context {A B : Type}.

Lemma fold_left_snoc (g : list B → A → list B) (f : A → B) (l : list A)
    (acc : list B) :
  (∀ acc x, g acc x = acc ++ [f x]) →
  fold_left g l acc = acc ++ map f l.
Proof.
  intros Hg. revert acc. induction l as [|x l IH]; intros acc; simpl.
  - by rewrite app_nil_r.
  - by rewrite IH, Hg, <- app_assoc.
Qed.

Lemma fold_left_snoc_if (g : list B → A → list B) (keep : A → bool)
    (f : A → B) (l : list A) (acc : list B) :
  (∀ acc x, g acc x = if keep x then acc ++ [f x] else acc) →
  fold_left g l acc = acc ++ map f (List.filter keep l).
Proof.
  intros Hg. revert acc. induction l as [|x l IH]; intros acc; simpl.
  - by rewrite app_nil_r.
  - rewrite IH, Hg. destruct (keep x); simpl; [|done].
    by rewrite <- app_assoc.
Qed.

End Appending.

Lemma enumerate_lookup {A} (l : list A) (start : Z) (j : nat) :
  Py.enumerate start l !! j = (λ x, (start + Z.of_nat j, x)) <$> l !! j.
Proof.
  revert start j. induction l as [|x l IH]; intros start [|j]; simpl; try done.
  - by rewrite Z.add_0_r.
  - rewrite IH. destruct (l !! j); simpl; [|done].
    do 2 f_equal. lia.
Qed.

Lemma enumerate_length {A} (l : list A) (start : Z) :
  length (Py.enumerate start l) = length l.
Proof. revert start. induction l; intros; simpl; auto. Qed.

(** ** Chunking a document *)

Section ChunkDocument.
Import Py DocumentLoader Aux.

Lemma append_chunks_spec filename doc_type p text_chunks chunks :
  append_chunks filename doc_type p text_chunks chunks
  = chunks ++ segment_chunks filename doc_type p text_chunks.
Proof.
  unfold append_chunks, segment_chunks.
  apply fold_left_snoc. by intros acc [i piece].
Qed.

Lemma chunk_parts_spec fuel self filename doc_type parts splits :
  Forall2 (λ p s, _split_text fuel self (text p) = Some s) parts splits →
  ∀ chunks,
    chunk_parts fuel self filename doc_type parts chunks
    = Some (chunks ++ concat (zip_with (segment_chunks filename doc_type) parts splits)).
Proof.
  induction 1 as [|p s parts splits Hs _ IH]; intros chunks; simpl.
  - by rewrite app_nil_r.
  - rewrite Hs, IH, append_chunks_spec. by rewrite <- app_assoc.
Qed.

(** The other items of a loaded segment: one item, never a reserved key. *)
Lemma loaded_attrs doc p :
  loaded doc → p ∈ content doc →
  ∃ k n, attrs p = {[ k := PInt n ]}
         ∧ k ∈ ["page"; "paragraph"; "section"; "row"].
Proof.
  intros [pages|paragraphs|t|columns rows|t] Hp; simpl in Hp.
  - apply list_elem_of_omap in Hp as [[i t] [_ Hp]].
    destruct (truthy (strip t)); simplify_eq. simpl.
    exists "page", i. split; [done|set_solver].
  - apply list_elem_of_omap in Hp as [[i t] [_ Hp]].
    destruct (truthy (strip t)); simplify_eq. simpl.
    exists "paragraph", (i + 1). split; [done|set_solver].
  - apply list_elem_of_singleton in Hp as ->. simpl.
    exists "section", 1. split; [done|set_solver].
  - apply elem_of_cons in Hp as [->|Hp].
    + exists "row", 0. split; [done|set_solver].
    + apply list_elem_of_fmap in Hp as [[idx row] [-> _]]. simpl.
      exists "row", (idx + 1). split; [done|set_solver].
  - apply list_elem_of_singleton in Hp as ->. simpl.
    exists "section", 1. split; [done|set_solver].
Qed.

Lemma make_metadata_reserved filename doc_type i p :
  (∃ k n, attrs p = {[ k := PInt n ]}
          ∧ k ∈ ["page"; "paragraph"; "section"; "row"]) →
  make_metadata filename doc_type i p !! "chunk_index" = Some (PInt i)
  ∧ make_metadata filename doc_type i p !! "source" = Some (PStr filename).
Proof.
  intros (k & n & Hattrs & Hk). unfold make_metadata. rewrite Hattrs.
  assert (k ≠ "chunk_index" ∧ k ≠ "source") as [Hk1 Hk2].
  { repeat (apply elem_of_cons in Hk as [->|Hk]; [done|]).
    by apply elem_of_nil in Hk. }
  split.
  - rewrite lookup_union_r.
    + by simplify_map_eq.
    + destruct (decide ("text" = "chunk_index")); simplify_map_eq; done.
  - rewrite lookup_union_r.
    + by simplify_map_eq.
    + destruct (decide ("text" = "source")); simplify_map_eq; done.
Qed.

(** C10. For a loaded document whose segments all split, [chunk_document]
    returns the segments' chunks in order, and the chunk made from piece
    [j] of a segment carries [chunk_index = j] (counted from 0 within that
    segment) and [source = filename]; hence chunks at the same position of
    two segments agree on both [source] and [chunk_index]. *)
Theorem chunk_index_restarts_per_segment fuel self doc filename splits :
  loaded doc →
  Forall2 (λ p s, _split_text fuel self (text p) = Some s) (content doc) splits →
  chunk_document fuel self doc filename
    = Some (concat (zip_with (segment_chunks filename (type doc))
                             (content doc) splits))
  ∧ (∀ k p s j piece,
       content doc !! k = Some p → splits !! k = Some s → s !! j = Some piece →
       ∃ ch, segment_chunks filename (type doc) p s !! j = Some ch
             ∧ chunk_content ch = piece
             ∧ chunk_metadata ch !! "chunk_index" = Some (PInt (Z.of_nat j))
             ∧ chunk_metadata ch !! "source" = Some (PStr filename))
  ∧ (∀ k1 k2 p1 p2 s1 s2 j piece1 piece2,
       content doc !! k1 = Some p1 → splits !! k1 = Some s1 →
       content doc !! k2 = Some p2 → splits !! k2 = Some s2 →
       s1 !! j = Some piece1 → s2 !! j = Some piece2 →
       ∃ ch1 ch2,
         segment_chunks filename (type doc) p1 s1 !! j = Some ch1
         ∧ segment_chunks filename (type doc) p2 s2 !! j = Some ch2
         ∧ chunk_metadata ch1 !! "source" = chunk_metadata ch2 !! "source"
         ∧ chunk_metadata ch1 !! "chunk_index"
           = chunk_metadata ch2 !! "chunk_index").
Proof.
  intros Hdoc Hsplits.
  assert (Hone : ∀ k p s j piece,
    content doc !! k = Some p → splits !! k = Some s → s !! j = Some piece →
    ∃ ch, segment_chunks filename (type doc) p s !! j = Some ch
          ∧ chunk_content ch = piece
          ∧ chunk_metadata ch !! "chunk_index" = Some (PInt (Z.of_nat j))
          ∧ chunk_metadata ch !! "source" = Some (PStr filename)).
  { intros k p s j piece Hp _ Hpiece.
    assert (Hin : p ∈ content doc) by (apply list_elem_of_lookup; eauto).
    destruct (make_metadata_reserved filename (type doc) (Z.of_nat j) p
                (loaded_attrs doc p Hdoc Hin)) as [Hidx Hsrc].
    eexists. unfold segment_chunks.
    rewrite list_lookup_fmap, enumerate_lookup, Hpiece. simpl.
    split; [reflexivity|]. simpl. by rewrite Z.add_0_l. }
  split; [|split; [exact Hone|]].
  - unfold chunk_document.
    by rewrite (chunk_parts_spec _ _ _ _ _ _ Hsplits []).
  - intros k1 k2 p1 p2 s1 s2 j piece1 piece2 Hp1 Hs1 Hp2 Hs2 H1 H2.
    destruct (Hone _ _ _ _ _ Hp1 Hs1 H1) as (ch1 & Hc1 & _ & Hi1 & Hsrc1).
    destruct (Hone _ _ _ _ _ Hp2 Hs2 H2) as (ch2 & Hc2 & _ & Hi2 & Hsrc2).
    exists ch1, ch2. by rewrite Hi1, Hi2, Hsrc1, Hsrc2.
Qed.

(** A PDF of two one-word pages: two chunks, both with index 0 and the
    same source. *)
Lemma chunk_index_not_unique :
  let self := init Config.settings in
  let doc := _load_pdf ["alpha"; "beta"] in
  loaded doc
  ∧ Forall2 (λ p s, _split_text 0 self (text p) = Some s)
            (content doc) [["alpha"]; ["beta"]]
  ∧ ∃ ch1 ch2,
      chunk_document 0 self doc "report.pdf" = Some [ch1; ch2]
      ∧ chunk_content ch1 = "alpha" ∧ chunk_content ch2 = "beta"
      ∧ chunk_metadata ch1 !! "chunk_index" = Some (PInt 0)
      ∧ chunk_metadata ch2 !! "chunk_index" = Some (PInt 0)
      ∧ chunk_metadata ch1 !! "source" = Some (PStr "report.pdf")
      ∧ chunk_metadata ch2 !! "source" = Some (PStr "report.pdf").
Proof.
  intros self doc.
  assert (Hdoc : loaded doc) by constructor.
  assert (Hsplits : Forall2 (λ p s, _split_text 0 self (text p) = Some s)
                      (content doc) [["alpha"]; ["beta"]]).
  { repeat constructor. }
  split; [exact Hdoc|]. split; [exact Hsplits|].
  destruct (chunk_index_restarts_per_segment 0 self doc "report.pdf"
              [["alpha"]; ["beta"]] Hdoc Hsplits) as (Hret & _ & _).
  eexists _, _. split; [exact Hret|].
  repeat split; vm_compute; reflexivity.
Defined.

End ChunkDocument.

(** ** Context assembly *)

Section Context.
Import Py RAGEngine Aux.

Lemma lt_spec (a b : Q) : lt a b = true ↔ (a < b)%Q.
Proof.
  unfold lt. rewrite Qlt_alt. destruct (a ?= b)%Q; split; congruence.
Qed.

(** A hit passes exactly when its distance, as a double, is strictly
    below the double computed for [1 - threshold]. *)
Lemma passes_spec cfg doc :
  passes cfg doc = true
  ↔ (fl (distance doc) < fl (1 - fl (Config.SIMILARITY_THRESHOLD cfg)))%Q.
Proof. unfold passes. apply lt_spec. Qed.

(** When the distance is a double and the bound is computed without
    rounding, a hit passes exactly when its similarity is strictly above
    the threshold. *)
Lemma passes_exact cfg doc :
  (fl (distance doc) == distance doc)%Q →
  (fl (1 - fl (Config.SIMILARITY_THRESHOLD cfg))
   == 1 - Config.SIMILARITY_THRESHOLD cfg)%Q →
  passes cfg doc = true
  ↔ (Config.SIMILARITY_THRESHOLD cfg < 1 - distance doc)%Q.
Proof.
  intros Hd Hb. rewrite passes_spec, Hd, Hb. split; intros H; lra.
Qed.

Lemma context_parts_spec cfg docs :
  context_parts cfg docs = ranked_blocks cfg docs.
Proof.
  unfold context_parts, ranked_blocks.
  rewrite (fold_left_snoc_if _ (λ '(i, doc), passes cfg doc)
             (λ '(i, doc), block i doc)); [done|].
  by intros acc [i doc].
Qed.

Lemma build_context_spec cfg docs :
  _build_context cfg docs = join separator (ranked_blocks cfg docs).
Proof. destruct docs; [done|]. unfold _build_context. by rewrite context_parts_spec. Qed.

(** C3, as stated, fails: with threshold 1/2, a hit at distance 1/2 has
    similarity exactly 1/2, which the wording keeps, yet the assembled
    context is empty. *)
Lemma build_context_drops_hit_at_threshold :
  let cfg := with_threshold Config.settings (1 # 2) in
  let doc := hit_at "a.txt" "first" (1 # 2) in
  (similarity doc == Config.SIMILARITY_THRESHOLD cfg)%Q
  ∧ spec_keeps cfg doc = true
  ∧ context_parts cfg [doc] = []
  ∧ _build_context cfg [doc] = "".
Proof. repeat split; vm_compute; reflexivity. Qed.

(** C3, amended. Context assembly keeps, in input order, exactly the hits
    whose distance is strictly below the double computed for
    [1 - threshold]. When the distance is a double and that bound is
    computed without rounding (as for the threshold 1/2), these are the
    hits whose similarity is strictly above the threshold, and a hit whose
    similarity equals the threshold is dropped. *)
Theorem build_context_keeps_strictly_above :
  (∀ cfg docs,
     _build_context cfg docs = join separator (ranked_blocks cfg docs))
  ∧ (∀ cfg doc,
       passes cfg doc = true
       ↔ (fl (distance doc)
          < fl (1 - fl (Config.SIMILARITY_THRESHOLD cfg)))%Q)
  ∧ (∀ cfg doc,
       (fl (distance doc) == distance doc)%Q →
       (fl (1 - fl (Config.SIMILARITY_THRESHOLD cfg))
        == 1 - Config.SIMILARITY_THRESHOLD cfg)%Q →
       (passes cfg doc = true
        ↔ (Config.SIMILARITY_THRESHOLD cfg < similarity doc)%Q)
       ∧ ((similarity doc == Config.SIMILARITY_THRESHOLD cfg)%Q
          → passes cfg doc = false)).
Proof.
  split; [exact build_context_spec|]. split; [exact passes_spec|].
  intros cfg doc Hd Hb. split; [exact (passes_exact cfg doc Hd Hb)|].
  intros Heq. destruct (passes cfg doc) eqn:E; [|done].
  apply (passes_exact cfg doc Hd Hb) in E. unfold similarity in *. lra.
Qed.

Lemma build_context_keeps_strictly_above_example :
  let cfg := with_threshold Config.settings (1 # 2) in
  let near := hit_at "a.txt" "first" (1 # 4) in
  let edge := hit_at "b.txt" "second" (1 # 2) in
  (similarity edge == Config.SIMILARITY_THRESHOLD cfg)%Q
  ∧ passes cfg edge = false
  ∧ _build_context cfg [near; edge]
    = "[Source 1: a.txt]" +:+ LF +:+ "first" +:+ LF.
Proof.
  intros cfg near edge.
  destruct build_context_keeps_strictly_above as (Hctx & _ & Hexact).
  split; [reflexivity|]. split.
  - apply (proj2 (Hexact cfg edge ltac:(vm_compute; reflexivity)
                    ltac:(vm_compute; reflexivity))).
    reflexivity.
  - rewrite Hctx. vm_compute. reflexivity.
Defined.

(** Where the subtraction rounds, the test follows the doubles, not the
    decimals: at threshold 0.3 the bound is the double of 0.7, so a hit at
    distance 0.7 is dropped although [1 - 0.7], taken on the doubles,
    lies above the threshold; at the default threshold 0.7 the bound is
    the double just above that of 0.3, so a hit at distance 0.3 is kept. *)
Lemma threshold_test_follows_doubles :
  let at_03 := with_threshold Config.settings (3 # 10) in
  fl (1 - fl (3 # 10)) = fl (7 # 10)
  ∧ passes at_03 (hit_at "a.txt" "first" (7 # 10)) = false
  ∧ (fl (3 # 10) < 1 - fl (7 # 10))%Q
  ∧ (fl (3 # 10) < fl (1 - fl (7 # 10)))%Q
  ∧ passes Config.settings (hit_at "a.txt" "first" (3 # 10)) = true.
Proof. repeat split; vm_compute; reflexivity. Qed.

(** C7. A kept hit's block carries the hit's rank in the whole input,
    counted from 1: the kept blocks are read off [enumerate(docs, 1)]
    after the filter, and entry [k] of that enumeration is rank [k + 1].
    With threshold 0.7 and similarities 0.9 and 0.5 only the first block
    remains, labelled Source 1; when instead the first hit is the one
    dropped, the survivor keeps the label Source 2. *)
Theorem context_labels_keep_input_rank :
  (∀ cfg docs,
     _build_context cfg docs
     = join separator
         (map (λ '(i, doc), block i doc)
              (List.filter (λ '(i, doc), passes cfg doc) (enumerate 1 docs))))
  ∧ (∀ (docs : list hit) (k : nat),
       enumerate 1 docs !! k = (λ doc, (1 + Z.of_nat k, doc)) <$> docs !! k)
  ∧ _build_context Config.settings
      [hit_at "a.txt" "first" (1 # 10); hit_at "b.txt" "second" (5 # 10)]
    = "[Source 1: a.txt]" +:+ LF +:+ "first" +:+ LF
  ∧ _build_context Config.settings
      [hit_at "a.txt" "first" (5 # 10); hit_at "b.txt" "second" (1 # 10)]
    = "[Source 2: b.txt]" +:+ LF +:+ "second" +:+ LF
  ∧ _build_context Config.settings
      [hit_at "a.txt" "first" (1 # 10); hit_at "b.txt" "second" (5 # 10);
       hit_at "c.txt" "third" (2 # 10)]
    = "[Source 1: a.txt]" +:+ LF +:+ "first" +:+ LF +:+ separator
      +:+ "[Source 3: c.txt]" +:+ LF +:+ "third" +:+ LF.
Proof.
  split; [exact build_context_spec|].
  split; [intros; apply enumerate_lookup|].
  repeat split; vm_compute; reflexivity.
Qed.

End Context.

(** ** Confidence *)

Section Confidence.
Import Py RAGEngine Aux.

(** Rounding to an integer stays within integer bounds. *)
Lemma round_half_even_between (a b : Z) (x : Q) :
  (inject_Z a <= x)%Q → (x <= inject_Z b)%Q →
  a ≤ round_half_even x ≤ b.
Proof.
  intros Ha Hb.
  assert (Hfa : a ≤ Qfloor x).
  { rewrite <- (Qfloor_Z a). by apply Qfloor_resp_le. }
  assert (Hfb : Qfloor x ≤ b).
  { rewrite <- (Qfloor_Z b). by apply Qfloor_resp_le. }
  assert (Hup : (inject_Z (Qfloor x) < x)%Q → Qfloor x + 1 ≤ b).
  { intros Hlt. destruct (decide (Qfloor x = b)) as [E|]; [|lia].
    rewrite E in Hlt. lra. }
  unfold round_half_even.
  destruct (x - inject_Z (Qfloor x) ?= 1 # 2)%Q eqn:E.
  - apply Qeq_alt in E. destruct (Z.even (Qfloor x)); [lia|].
    split; [lia|]. apply Hup. lra.
  - lia.
  - apply Qgt_alt in E. split; [lia|]. apply Hup. lra.
Qed.

Lemma round2_between (a b : Z) (x : Q) :
  (inject_Z a <= x)%Q → (x <= inject_Z b)%Q →
  (inject_Z a <= round2 x ∧ round2 x <= inject_Z b)%Q.
Proof.
  intros Ha Hb. unfold round2.
  destruct (round_half_even_between (a * 100) (b * 100) (x * 100)%Q) as [H1 H2].
  - rewrite inject_Z_mult. change (inject_Z 100) with 100%Q. lra.
  - rewrite inject_Z_mult. change (inject_Z 100) with 100%Q. lra.
  - rewrite Zle_Qle in H1, H2.
    rewrite inject_Z_mult in H1, H2. change (inject_Z 100) with 100%Q in *.
    set (r := inject_Z (round_half_even (x * 100))) in *.
    split.
    + apply Qle_shift_div_l; [reflexivity|lra].
    + apply Qle_shift_div_r; [reflexivity|lra].
Qed.

(** The mean of at most three numbers within [lo, hi] is within it. *)
Lemma mean_between (lo hi : Q) (l : list Q) :
  l ≠ [] → (length l ≤ 3)%nat →
  Forall (λ x, (lo <= x ∧ x <= hi)%Q) l →
  (lo <= sum l / inject_Z (llen l) ∧ sum l / inject_Z (llen l) <= hi)%Q.
Proof.
  intros Hne Hlen Hall. unfold sum, llen.
  destruct l as [|x1 [|x2 [|x3 [|x4 l]]]]; [done| | | |simpl in Hlen; lia];
    repeat match goal with
           | H : Forall _ (_ :: _) |- _ => apply Forall_cons in H as [? H]
           end;
    simpl fold_left; simpl length;
    (split; [apply Qle_shift_div_l|apply Qle_shift_div_r]);
    try reflexivity.
  all: match goal with
       | |- context [inject_Z (Z.of_nat ?n)] =>
           let v := eval vm_compute in (Z.of_nat n) in
           change (inject_Z (Z.of_nat n)) with (v # 1)%Q
       end; cbv beta in *; lra.
Qed.

Lemma confidence_between (lo hi : Z) (d : hit) (docs : list hit) :
  Forall (λ doc, (inject_Z lo <= 1 - distance doc
                  ∧ 1 - distance doc <= inject_Z hi)%Q) (take 3 (d :: docs)) →
  (inject_Z lo <= _calculate_confidence (d :: docs)
   ∧ _calculate_confidence (d :: docs) <= inject_Z hi)%Q.
Proof.
  intros Hall. unfold _calculate_confidence.
  set (sims := map (λ doc, (1 - distance doc)%Q) (take 3 (d :: docs))).
  assert (Hlen : llen (take 3 (d :: docs)) = llen sims).
  { unfold llen, sims. by rewrite length_map. }
  rewrite Hlen.
  destruct (mean_between (inject_Z lo) (inject_Z hi) sims) as [H1 H2].
  - done.
  - unfold sims. rewrite length_map, length_take. lia.
  - unfold sims. by apply Forall_fmap.
  - by apply round2_between.
Qed.

(** C2, as stated, fails: one hit at distance 3/2, within [0,2], gives
    the confidence -1/2. *)
Lemma confidence_negative :
  let docs := [hit_at "a.txt" "first" (3 # 2)] in
  docs ≠ []
  ∧ Forall (λ doc, (0 <= distance doc ∧ distance doc <= 2)%Q) docs
  ∧ (_calculate_confidence docs == - (1 # 2))%Q
  ∧ ¬ (0 <= _calculate_confidence docs
       ∧ _calculate_confidence docs <= 1)%Q.
Proof.
  intros docs. split; [done|]. split.
  - repeat constructor; simpl; lra.
  - split; [reflexivity|]. intros [H _]. vm_compute in H. by apply H.
Qed.

(** C2, amended. For hits whose distances lie in [0,2] the confidence
    lies in [-1,1]; it is non-negative when the (at most three) hits it
    averages have distance at most 1; for no hits it is 0. *)
Theorem confidence_bounds docs :
  Forall (λ doc, (0 <= distance doc ∧ distance doc <= 2)%Q) docs →
  (-1 <= _calculate_confidence docs ∧ _calculate_confidence docs <= 1)%Q
  ∧ (Forall (λ doc, (distance doc <= 1)%Q) (take 3 docs) →
     (0 <= _calculate_confidence docs)%Q)
  ∧ _calculate_confidence [] = 0%Q.
Proof.
  intros Hall. destruct docs as [|d docs].
  - simpl. repeat split; lra.
  - split; [|split; [|done]].
    + apply (confidence_between (-1) 1).
      apply Forall_take. eapply Forall_impl; [exact Hall|].
      intros doc [H0 H2]. simpl in *.
      change (inject_Z (-1)) with (-1)%Q. change (inject_Z 1) with 1%Q.
      split; lra.
    + intros Hle. apply (confidence_between 0 1).
      apply Forall_take with (n := 3%nat) in Hall.
      revert Hall Hle. generalize (take 3 (d :: docs)) as top.
      induction top as [|x top IH]; intros Hall Hle; [constructor|].
      apply Forall_cons in Hall as [[H0 H2] Hall].
      apply Forall_cons in Hle as [H1 Hle].
      constructor; [|by apply IH].
      change (inject_Z 0) with 0%Q. change (inject_Z 1) with 1%Q.
      split; lra.
Qed.

Lemma confidence_bounds_example :
  let docs := [hit_at "a.txt" "first" (1 # 4); hit_at "b.txt" "second" (3 # 2)] in
  Forall (λ doc, (0 <= distance doc ∧ distance doc <= 2)%Q) docs
  ∧ (-1 <= _calculate_confidence docs ∧ _calculate_confidence docs <= 1)%Q
  ∧ (_calculate_confidence docs == 12 # 100)%Q.
Proof.
  intros docs.
  assert (Hall : Forall (λ doc, (0 <= distance doc ∧ distance doc <= 2)%Q) docs).
  { repeat constructor; simpl; lra. }
  split; [exact Hall|].
  split; [exact (proj1 (confidence_bounds docs Hall))|reflexivity].
Defined.

End Confidence.

(** ** The query cycle *)

Section QueryFailure.
Import Py RAGEngine Aux.

(** C6, as stated, fails: when the search raises a [ConnectionError], the
    caller of [query] receives that very exception, not one of class
    [RAGQueryError]. *)
Lemma query_reraises_search_error :
  let e := {| exc_class := "ConnectionError";
              exc_message := "index unreachable" |} in
  let search := λ _ _ _, Raise e in
  let generate :=
    λ _ _ _, Return {| response := "ok"; model := "m"; usage := (1, 1);
                       stop_reason := "end_turn" |} in
  fst (query search generate 0 1 Config.settings "What is the refund policy?"
         None None None) = Raise e
  ∧ exc_class e ≠ "RAGQueryError".
Proof. split; [reflexivity|discriminate]. Qed.

(** C6, amended. When the search step raises [e], or the search returns
    and the generation step raises [e], [query] logs an error record and
    raises [e] itself, unchanged: no wrapper, no question and no elapsed
    time attached. *)
Theorem query_failure_is_reraised
    (search : string → Z → option (gmap string pyval) → outcome search_result)
    (generate :
      string → string → option (list (string * string)) → outcome claude_response)
    (start_time end_time : Q) cfg user_query history filter_metadata top_k e :
  search user_query (effective_top_k cfg top_k) filter_metadata = Raise e
  ∨ (∃ found,
       search user_query (effective_top_k cfg top_k) filter_metadata
         = Return found
       ∧ generate user_query (_build_context cfg (results found)) history
         = Raise e) →
  fst (query search generate start_time end_time cfg user_query history
         filter_metadata top_k) = Raise e
  ∧ last (snd (query search generate start_time end_time cfg user_query
                 history filter_metadata top_k))
    = Some (ERROR, "Error in RAG query: " +:+ exc_message e).
Proof.
  unfold query, effective_top_k.
  intros [Hs|(found & Hs & Hg)]; rewrite Hs; [|rewrite Hg]; simpl.
  - done.
  - done.
Qed.

Lemma query_failure_is_reraised_example :
  let e := {| exc_class := "APITimeoutError";
              exc_message := "request timed out" |} in
  let found := {| results := [hit_at "a.txt" "first" (1 # 10)];
                  sr_query := "q"; sr_total := 1 |} in
  let search := λ _ _ _, Return found in
  let generate := λ _ _ _, Raise e in
  fst (query search generate 0 1 Config.settings "q" None None None) = Raise e.
Proof.
  intros e found search generate.
  apply (query_failure_is_reraised search generate 0 1 Config.settings "q"
           None None None e).
  right. exists found. split; reflexivity.
Defined.

End QueryFailure.

(** ** Session memory: history *)

Section History.
Import Py ConversationMemory Aux.

Lemma slice_from_zero {A} (l : list A) : slice_from l 0 = l.
Proof.
  unfold slice_from, adjust_index. simpl.
  rewrite Z.min_l by (unfold llen; lia). done.
Qed.

Lemma slice_from_negative {A} (l : list A) (k : Z) :
  0 < k → k ≤ llen l →
  slice_from l (- k) = lastn (Z.to_nat k) l.
Proof.
  intros Hk Hle. unfold slice_from, adjust_index, lastn, llen in *.
  destruct (- k <? 0) eqn:E; [|apply Z.ltb_ge in E; lia].
  f_equal. lia.
Qed.

Lemma lastn_all {A} (k : nat) (l : list A) :
  (length l ≤ k)%nat → lastn k l = l.
Proof. intros H. unfold lastn. by replace (length l - k)%nat with 0%nat by lia. Qed.

Lemma lastn_length {A} (k : nat) (l : list A) :
  length (lastn k l) = (length l `min` k)%nat.
Proof. unfold lastn. rewrite length_drop. lia. Qed.

Lemma lastn_snoc {A} (k : nat) (l : list A) (x : A) :
  (1 ≤ k)%nat → lastn k (lastn k l ++ [x]) = lastn k (l ++ [x]).
Proof.
  intros Hk. destruct (decide (length l ≤ k)%nat) as [Hle|Hgt].
  - by rewrite (lastn_all k l).
  - unfold lastn at 1 3. rewrite !length_app, lastn_length. simpl.
    unfold lastn. rewrite !drop_app_le by (rewrite ?length_drop; lia).
    rewrite drop_drop. do 2 f_equal. lia.
Qed.

(** With at least one turn allowed, trimming keeps the last [2N]. *)
Lemma trim_spec (n : Z) (history : list message) :
  1 ≤ n → trim n history = lastn (Z.to_nat (2 * n)) history.
Proof.
  intros Hn. unfold trim.
  destruct (llen history >? n * 2) eqn:E.
  - apply Z.gtb_lt in E.
    replace (- n * 2) with (- (2 * n)) by lia.
    apply slice_from_negative; lia.
  - rewrite lastn_all; [done|].
    unfold llen in E. destruct (Z.gtb_spec (Z.of_nat (length history)) (n * 2)); [done|lia].
Qed.

(** With no turn allowed, the slice bound is [-0 = 0] and nothing is
    dropped. *)
Lemma trim_zero (history : list message) : trim 0 history = history.
Proof.
  unfold trim. destruct (llen history >? 0 * 2); [|done].
  apply slice_from_zero.
Qed.

Lemma add_message_history cfg now sid role_ content_ metadata_ self :
  message_history (fst (add_message cfg now sid role_ content_ metadata_ self))
  = <[sid := trim (Config.MAX_CONVERSATION_HISTORY cfg)
               (stored sid self
                ++ [message_of {| a_now := now; a_role := role_;
                                  a_content := content_;
                                  a_metadata := metadata_ |}])]>
      (message_history self).
Proof. unfold add_message. by destruct (sessions self !! sid). Qed.

Lemma add_message_stored cfg now sid role_ content_ metadata_ self :
  stored sid (fst (add_message cfg now sid role_ content_ metadata_ self))
  = trim (Config.MAX_CONVERSATION_HISTORY cfg)
      (stored sid self
       ++ [message_of {| a_now := now; a_role := role_;
                         a_content := content_; a_metadata := metadata_ |}]).
Proof.
  unfold stored at 1. by rewrite add_message_history, lookup_insert_eq.
Qed.

(** Appending to one session leaves the other histories alone. *)
Lemma add_message_stored_other cfg now sid sid' role_ content_ metadata_ self :
  sid ≠ sid' →
  message_history (fst (add_message cfg now sid role_ content_ metadata_ self))
    !! sid'
  = message_history self !! sid'.
Proof. intros Hne. by rewrite add_message_history, lookup_insert_ne. Qed.

Lemma append_all_snoc cfg sid calls a self :
  append_all cfg sid (calls ++ [a]) self
  = fst (add_message cfg (a_now a) sid (a_role a) (a_content a) (a_metadata a)
           (append_all cfg sid calls self)).
Proof. unfold append_all. by rewrite fold_left_app. Qed.

(** For [max_turns = N >= 1]: after every append the stored history is
    the last [2N] of everything stored and appended so far, oldest
    dropped first, so at most [2N] long. *)
Lemma append_all_stored cfg sid calls a self :
  1 ≤ Config.MAX_CONVERSATION_HISTORY cfg →
  let n := Z.to_nat (2 * Config.MAX_CONVERSATION_HISTORY cfg) in
  stored sid (append_all cfg sid (calls ++ [a]) self)
  = lastn n (stored sid self ++ map message_of (calls ++ [a]))
  ∧ (length (stored sid (append_all cfg sid (calls ++ [a]) self)) ≤ n)%nat.
Proof.
  intros Hn n.
  assert (Heq : stored sid (append_all cfg sid (calls ++ [a]) self)
                = lastn n (stored sid self ++ map message_of (calls ++ [a]))).
  { revert a. induction calls as [|b calls IH] using rev_ind; intros a.
    - simpl. rewrite add_message_stored, trim_spec by done.
      by destruct a.
    - rewrite append_all_snoc, add_message_stored, trim_spec by done.
      rewrite IH. fold n. rewrite lastn_snoc by lia.
      rewrite (map_app _ (calls ++ [b]) [a]), app_assoc. by destruct a. }
  split; [exact Heq|]. rewrite Heq, lastn_length. lia.
Qed.

(** Reads hand back the manager they were given. *)
Lemma reads_leave_memory sid limit self :
  snd (get_history sid limit self) = self
  ∧ snd (get_formatted_history sid limit self) = self.
Proof.
  unfold get_formatted_history, get_history.
  destruct (truthy_int limit); done.
Qed.

(** C4. With [MAX_CONVERSATION_HISTORY = 0] the bound [2N = 0] is not
    kept: the slice bound [-0] is [0], the trim keeps the whole list, and
    every append makes the stored history one longer. *)
Theorem add_message_keeps_everything_at_zero_turns
    cfg now sid role_ content_ metadata_ self :
  Config.MAX_CONVERSATION_HISTORY cfg = 0 →
  let self' := fst (add_message cfg now sid role_ content_ metadata_ self) in
  fst (get_history sid None self')
  = stored sid self
    ++ [message_of {| a_now := now; a_role := role_; a_content := content_;
                      a_metadata := metadata_ |}]
  ∧ 2 * Config.MAX_CONVERSATION_HISTORY cfg
    < llen (fst (get_history sid None self')).
Proof.
  intros Hzero self'.
  assert (Heq : fst (get_history sid None self')
                = stored sid self
                  ++ [message_of {| a_now := now; a_role := role_;
                                    a_content := content_;
                                    a_metadata := metadata_ |}]).
  { unfold get_history. simpl. fold (stored sid self'). unfold self'.
    by rewrite add_message_stored, Hzero, trim_zero. }
  split; [exact Heq|].
  rewrite Heq, Hzero. unfold llen. rewrite length_app. simpl. lia.
Qed.

Lemma add_message_keeps_everything_at_zero_turns_example :
  let cfg := with_max_history Config.settings 0 in
  let now := λ _ : nat, 0 in
  let self1 := fst (add_message cfg now "s" "user" "one" None init) in
  let self2 := fst (add_message cfg now "s" "assistant" "two" None self1) in
  let self3 := fst (add_message cfg now "s" "user" "three" None self2) in
  Config.MAX_CONVERSATION_HISTORY cfg = 0
  ∧ 2 * Config.MAX_CONVERSATION_HISTORY cfg
    < llen (fst (get_history "s" None self3))
  ∧ map content (fst (get_history "s" None self3)) = ["one"; "two"; "three"].
Proof.
  intros cfg now self1 self2 self3.
  split; [reflexivity|]. split.
  - exact (proj2 (add_message_keeps_everything_at_zero_turns
                    cfg now "s" "user" "three" None self2 eq_refl)).
  - vm_compute. reflexivity.
Defined.

(** C9. A limit of 0 is falsy: [get_history] and [get_formatted_history]
    answer with the whole stored history, as they do without a limit. *)
Theorem get_history_limit_zero sid self history :
  message_history self !! sid = Some history →
  history ≠ [] →
  fst (get_history sid (Some 0) self) = history
  ∧ fst (get_history sid (Some 0) self) ≠ []
  ∧ get_history sid (Some 0) self = get_history sid None self
  ∧ fst (get_formatted_history sid (Some 0) self)
    = map (λ msg, (role msg, content msg)) history
  ∧ get_formatted_history sid (Some 0) self
    = get_formatted_history sid None self.
Proof.
  intros Hh Hne. unfold get_formatted_history, get_history. simpl.
  rewrite Hh. simpl. repeat split; try done.
  rewrite (fold_left_snoc _ (λ msg, (role msg, content msg))); done.
Qed.

Lemma get_history_limit_zero_example :
  let self := fst (add_message Config.settings (λ _, 0) "s" "user" "hello"
                     None init) in
  map content (fst (get_history "s" (Some 0) self)) = ["hello"]
  ∧ fst (get_formatted_history "s" (Some 0) self) = [("user", "hello")].
Proof.
  intros self.
  destruct (get_history_limit_zero "s" self
              [ {| role := "user"; content := "hello"; timestamp := 0;
                   metadata := ∅ |} ])
    as (H1 & _ & _ & H2 & _).
  - vm_compute. reflexivity.
  - discriminate.
  - rewrite H1, H2. split; reflexivity.
Defined.

End History.

(** ** Session memory: the expiry sweep *)

Section Sweep.
Import Py ConversationMemory Aux.

Lemma expired_sessions_spec cfg now self :
  expired_sessions cfg now self
  = map fst (List.filter (λ '(sid, s), expired cfg now s)
                         (map_to_list (sessions self))).
Proof.
  unfold expired_sessions.
  rewrite (fold_left_snoc_if _ (λ '(sid, s), expired cfg now s) fst); [done|].
  by intros acc [sid s].
Qed.

(** The collected identifiers are those of the expired sessions. *)
Lemma elem_of_expired_sessions cfg now self sid :
  sid ∈ expired_sessions cfg now self
  ↔ ∃ s, sessions self !! sid = Some s ∧ expired cfg now s = true.
Proof.
  rewrite expired_sessions_spec, list_elem_of_fmap. split.
  - intros ([sid' s] & -> & Hin). exists s.
    apply list_elem_of_In, filter_In in Hin as [Hin He].
    apply list_elem_of_In, elem_of_map_to_list in Hin. done.
  - intros (s & Hs & He). exists (sid, s). split; [done|].
    apply list_elem_of_In, filter_In. split; [|done].
    by apply list_elem_of_In, elem_of_map_to_list.
Qed.

Lemma NoDup_fst_filter {A B} (f : A * B → bool) (l : list (A * B)) :
  NoDup (map fst l) → NoDup (map fst (List.filter f l)).
Proof.
  induction l as [|x l IH]; simpl; [done|].
  intros [Hx Hl]%NoDup_cons. destruct (f x); simpl; [|by apply IH].
  apply NoDup_cons. split; [|by apply IH].
  intros Hin. apply Hx.
  apply list_elem_of_fmap in Hin as (y & -> & Hy).
  apply list_elem_of_In, filter_In in Hy as [Hy _].
  apply list_elem_of_fmap. exists y. split; [done|]. by apply list_elem_of_In.
Qed.

Lemma NoDup_expired_sessions cfg now self :
  NoDup (expired_sessions cfg now self).
Proof.
  rewrite expired_sessions_spec. apply NoDup_fst_filter.
  apply NoDup_fst_map_to_list.
Qed.

(** The second loop, table by table. *)
Lemma remove_all_sessions ids self sid :
  sessions (fold_left remove_session ids self) !! sid
  = if decide (sid ∈ ids) then None else sessions self !! sid.
Proof.
  revert self. induction ids as [|i ids IH]; intros self; simpl.
  - done.
  - rewrite IH. simpl. destruct (decide (sid = i)) as [->|Hne].
    + rewrite lookup_delete_eq.
      rewrite (decide_True (P := i ∈ i :: ids)) by apply list_elem_of_here.
      by destruct (decide (i ∈ ids)).
    + rewrite lookup_delete_ne by done.
      destruct (decide (sid ∈ ids)) as [Hin|Hnin].
      * by rewrite decide_True by by apply list_elem_of_further.
      * rewrite decide_False; [done|].
        intros [?|?]%elem_of_cons; done.
Qed.

Lemma remove_all_history ids self sid :
  message_history (fold_left remove_session ids self) !! sid
  = if decide (sid ∈ ids) then None else message_history self !! sid.
Proof.
  revert self. induction ids as [|i ids IH]; intros self; simpl.
  - done.
  - rewrite IH. simpl. destruct (decide (sid = i)) as [->|Hne].
    + rewrite lookup_delete_eq.
      rewrite (decide_True (P := i ∈ i :: ids)) by apply list_elem_of_here.
      by destruct (decide (i ∈ ids)).
    + rewrite lookup_delete_ne by done.
      destruct (decide (sid ∈ ids)) as [Hin|Hnin].
      * by rewrite decide_True by by apply list_elem_of_further.
      * rewrite decide_False; [done|].
        intros [?|?]%elem_of_cons; done.
Qed.

(** Removing distinct existing sessions lowers the count by their number. *)
Lemma remove_all_size ids self :
  NoDup ids →
  (∀ sid, sid ∈ ids → is_Some (sessions self !! sid)) →
  (size (sessions (fold_left remove_session ids self)) + length ids
   = size (sessions self))%nat.
Proof.
  revert self. induction ids as [|i ids IH]; intros self Hnd Hin; simpl.
  - lia.
  - apply NoDup_cons in Hnd as [Hi Hnd].
    destruct (Hin i (list_elem_of_here _ _)) as [s Hs].
    assert (Hrest : ∀ sid, sid ∈ ids →
              is_Some (sessions (remove_session self i) !! sid)).
    { intros sid Hsid. simpl.
      rewrite lookup_delete_ne by (intros ->; done).
      apply Hin. by apply list_elem_of_further. }
    specialize (IH (remove_session self i) Hnd Hrest). simpl in IH.
    rewrite map_size_delete, Hs in IH.
    assert (size (sessions self) ≠ 0)%nat.
    { apply map_size_non_empty_iff. intros E. rewrite E in Hs.
      by rewrite lookup_empty in Hs. }
    lia.
Qed.

(** C5, as stated, fails: the sweep of a table holding one expired
    session removes that session and evaluates to [None], not to the
    count 1. *)
Lemma cleanup_returns_none :
  let self := (create_session "s" (λ _, 0) None init).1.2 in
  let now := minutes 31 in
  let out := cleanup_expired_sessions Config.settings now self in
  size (sessions self) = 1%nat
  ∧ size (sessions out.1.2) = 0%nat
  ∧ out.1.1 = RNone
  ∧ out.1.1 ≠ RInt 1
  ∧ out.2 = [(RAGEngine.INFO, "Cleaned up 1 expired sessions")].
Proof. repeat split; try (vm_compute; reflexivity). discriminate. Qed.

(** C5, amended. One sweep removes exactly the sessions whose idle time
    [now - last_activity] strictly exceeds the timeout, together with
    their histories, and leaves every other session and history as it was;
    it returns nothing, the number removed only goes to the log (when it is
    not zero); a second sweep at the same clock reading removes nothing. *)
Theorem cleanup_removes_exactly_expired cfg now self :
  let out := cleanup_expired_sessions cfg now self in
  let ids := expired_sessions cfg now self in
  out.1.1 = RNone
  ∧ (∀ sid, sessions out.1.2 !! sid
            = match sessions self !! sid with
              | Some s => if expired cfg now s then None else Some s
              | None => None
              end)
  ∧ (∀ sid, message_history out.1.2 !! sid
            = match sessions self !! sid with
              | Some s => if expired cfg now s then None
                          else message_history self !! sid
              | None => message_history self !! sid
              end)
  ∧ (size (sessions out.1.2) + length ids = size (sessions self))%nat
  ∧ out.2 = match ids with
            | [] => []
            | _ => [(RAGEngine.INFO,
                     "Cleaned up " +:+ pretty (llen ids) +:+ " expired sessions")]
            end
  ∧ expired_sessions cfg now out.1.2 = []
  ∧ cleanup_expired_sessions cfg now out.1.2 = (RNone, out.1.2, []).
Proof.
  intros out ids. subst out. unfold cleanup_expired_sessions. simpl. fold ids.
  assert (Hs : ∀ sid,
    sessions (fold_left remove_session ids self) !! sid
    = match sessions self !! sid with
      | Some s => if expired cfg now s then None else Some s
      | None => None
      end).
  { intros sid. rewrite remove_all_sessions.
    destruct (decide (sid ∈ ids)) as [Hin|Hnin].
    - apply elem_of_expired_sessions in Hin as (s & -> & ->). done.
    - destruct (sessions self !! sid) as [s|] eqn:E; [|done].
      destruct (expired cfg now s) eqn:Ee; [|done].
      exfalso. apply Hnin, elem_of_expired_sessions. eauto. }
  assert (Hnone : expired_sessions cfg now (fold_left remove_session ids self) = []).
  { apply elem_of_nil_inv. intros sid (s & Hsid & He)%elem_of_expired_sessions.
    rewrite Hs in Hsid. destruct (sessions self !! sid) as [s0|]; [|done].
    destruct (expired cfg now s0) eqn:E0; [done|]. congruence. }
  split; [done|]. split; [exact Hs|]. split; [|split; [|split; [done|split]]].
  - intros sid. rewrite remove_all_history.
    destruct (decide (sid ∈ ids)) as [Hin|Hnin].
    + apply elem_of_expired_sessions in Hin as (s & -> & ->). done.
    + destruct (sessions self !! sid) as [s|] eqn:E; [|done].
      destruct (expired cfg now s) eqn:Ee; [|done].
      exfalso. apply Hnin, elem_of_expired_sessions. eauto.
  - apply remove_all_size; [apply NoDup_expired_sessions|].
    intros sid (s & -> & _)%elem_of_expired_sessions. eauto.
  - exact Hnone.
  - by rewrite Hnone.
Qed.

(** Idle time keeps growing: a session spared by one sweep can fall to a
    sweep at a later clock reading without any activity in between. *)
Lemma cleanup_later_reading :
  let self := (create_session "s" (λ _, 0) None init).1.2 in
  let after_first := (cleanup_expired_sessions Config.settings (minutes 30) self).1.2 in
  after_first = self
  ∧ expired_sessions Config.settings (minutes 30 + 1) after_first = ["s"].
Proof. split; vm_compute; reflexivity. Qed.

End Sweep.

(** * Further properties of the code *)

(** ** Strings *)

Section Strings.
Import Py.

Lemma rstrip_keeps_head c s :
  isspace c = false → rstrip (String c s) = String c (rstrip s).
Proof. intros Hc. simpl. rewrite Hc. by destruct (rstrip s). Qed.

Lemma rstrip_idempotent s : rstrip (rstrip s) = rstrip s.
Proof.
  induction s as [|c s IH]; [done|]. simpl.
  destruct (rstrip s) as [|c' r] eqn:E.
  - destruct (isspace c) eqn:Ec; [done|]. simpl. by rewrite Ec.
  - change (rstrip (String c (String c' r))
            = String c (String c' r)).
    simpl. simpl in IH. by destruct (rstrip r); rewrite ?IH;
      destruct (isspace c'); simplify_eq.
Qed.

Lemma lstrip_head s :
  lstrip s = "" ∨ ∃ c t, lstrip s = String c t ∧ isspace c = false.
Proof.
  induction s as [|c s IH]; [by left|]. simpl.
  destruct (isspace c) eqn:Ec; [done|]. right. eauto.
Qed.

(** Stripping twice is stripping once. *)
Lemma strip_idempotent s : strip (strip s) = strip s.
Proof.
  unfold strip. destruct (lstrip_head s) as [->|(c & t & -> & Hc)]; [done|].
  rewrite (rstrip_keeps_head c t Hc). simpl lstrip. rewrite Hc.
  by rewrite <- (rstrip_keeps_head c t Hc), rstrip_idempotent.
Qed.

Lemma len_nonneg s : 0 ≤ len s.
Proof. unfold len. lia. Qed.

Lemma lstrip_len s : len (lstrip s) ≤ len s.
Proof.
  unfold len. induction s as [|c s IH]; simpl; [done|].
  destruct (isspace c); simpl; lia.
Qed.

Lemma rstrip_len s : len (rstrip s) ≤ len s.
Proof.
  unfold len. induction s as [|c s IH]; simpl; [done|].
  destruct (rstrip s); [destruct (isspace c)|]; simpl in *; lia.
Qed.

Lemma strip_len s : len (strip s) ≤ len s.
Proof.
  unfold strip. pose proof (rstrip_len (lstrip s)). pose proof (lstrip_len s). lia.
Qed.

Lemma substring_length_le n m s :
  (String.length (String.substring n m s) ≤ m)%nat.
Proof.
  revert n m. induction s as [|c s IH]; intros [|n] [|m]; simpl; try lia.
  - specialize (IH 0%nat m). lia.
  - apply IH.
  - apply IH.
Qed.

(** A slice between non-negative bounds is no longer than their
    distance. *)
Lemma slice_len s lo hi :
  0 ≤ lo → 0 ≤ hi → len (slice s lo hi) ≤ Z.max 0 (hi - lo).
Proof.
  intros Hlo Hhi. unfold slice, adjust_index.
  destruct (lo <? 0) eqn:E1; [apply Z.ltb_lt in E1; lia|].
  destruct (hi <? 0) eqn:E2; [apply Z.ltb_lt in E2; lia|].
  pose proof (len_nonneg s).
  pose proof (substring_length_le (Z.to_nat (lo `min` len s))
                (Z.to_nat (hi `min` len s - lo `min` len s)) s).
  unfold len at 1. lia.
Qed.

Lemma rfind_scan_bounds sub s lo k :
  rfind_scan sub s lo k = -1
  ∨ (lo ≤ rfind_scan sub s lo k < lo + Z.of_nat k).
Proof.
  induction k as [|k IH]; [by left|]. simpl rfind_scan.
  destruct (occurs_at sub s (lo + Z.of_nat k)); [right; lia|].
  destruct IH as [->|IH]; [by left|right; lia].
Qed.

(** A successful [rfind] from a non-negative offset lands at or after it,
    and the occurrence ends by the upper end when that is in range. *)
Lemma rfind_lower s sub lo hi :
  0 ≤ lo → rfind s sub lo hi = -1 ∨ lo ≤ rfind s sub lo hi.
Proof.
  intros Hlo. unfold rfind.
  destruct (lo <? 0) eqn:E; [apply Z.ltb_lt in E; lia|].
  match goal with |- context [if ?c then -1 else _] => destruct c end;
    [by left|].
  match goal with |- context [rfind_scan ?a ?b ?c ?d] =>
    destruct (rfind_scan_bounds a b c d) as [->|?] end; [by left|right; lia].
Qed.

Lemma rfind_upper s sub lo hi :
  0 ≤ lo → 0 ≤ hi ≤ len s →
  rfind s sub lo hi = -1 ∨ rfind s sub lo hi + len sub ≤ hi.
Proof.
  intros Hlo Hhi. unfold rfind.
  destruct (lo <? 0) eqn:E; [apply Z.ltb_lt in E; lia|].
  destruct (hi >? len s) eqn:E1; [apply Z.gtb_lt in E1; lia|].
  destruct (hi <? 0) eqn:E2; [apply Z.ltb_lt in E2; lia|].
  destruct (hi - lo <? len sub) eqn:E3; [by left|]. apply Z.ltb_ge in E3.
  match goal with |- context [rfind_scan ?a ?b ?c ?d] =>
    destruct (rfind_scan_bounds a b c d) as [->|?] end; [by left|right; lia].
Qed.

End Strings.

(** ** The chunker: what every returned chunk satisfies *)

Section ChunkerInvariants.
Import Py DocumentLoader Aux.

Lemma markers_len : Forall (λ p, len p = 2) markers.
Proof. repeat constructor. Qed.

Lemma snap_end_lower text start end_ puncts :
  0 ≤ start → Forall (λ p, len p = 2) puncts →
  snap_end text start end_ puncts = end_
  ∨ start + 2 ≤ snap_end text start end_ puncts.
Proof.
  intros Hs. induction 1 as [|p puncts Hp _ IH]; simpl; [by left|].
  destruct (rfind text p start end_ =? -1) eqn:E; simpl; [exact IH|].
  apply Z.eqb_neq in E. right.
  destruct (rfind_lower text p start end_ Hs); lia.
Qed.

Lemma snap_end_upper text start end_ puncts :
  0 ≤ start → 0 ≤ end_ ≤ len text →
  snap_end text start end_ puncts ≤ end_.
Proof.
  intros Hs He. induction puncts as [|p puncts IH]; simpl; [lia|].
  destruct (rfind text p start end_ =? -1) eqn:E; simpl; [exact IH|].
  apply Z.eqb_neq in E.
  destruct (rfind_upper text p start end_ Hs He); lia.
Qed.

(** A cut is the raw window end or lies at least two characters past the
    window start. *)
Lemma cut_end_lower self text start :
  0 ≤ start →
  cut_end self text start = start + chunk_size self
  ∨ start + 2 ≤ cut_end self text start.
Proof.
  intros Hs. unfold cut_end.
  destruct (start + chunk_size self <? len text); [|by left].
  apply snap_end_lower; [done|apply markers_len].
Qed.

(** A cut never lies past the raw window end. *)
Lemma cut_end_upper self text start :
  0 ≤ start → 0 ≤ chunk_size self →
  cut_end self text start ≤ start + chunk_size self.
Proof.
  intros Hs Hsize. unfold cut_end.
  destruct (start + chunk_size self <? len text) eqn:E; [|lia].
  apply Z.ltb_lt in E. apply snap_end_upper; lia.
Qed.

Lemma next_start_nonneg self text start : 0 ≤ next_start self text start.
Proof.
  unfold next_start, window_step. cbn [fst].
  destruct (cut_end self text start - chunk_overlap self <? 0) eqn:E; [done|].
  by apply Z.ltb_ge in E.
Qed.

(** What holds of every piece a window can contribute holds of every
    chunk the loop returns. *)
Lemma split_loop_invariant (P : string → Prop) self text :
  (∀ start, 0 ≤ start →
     truthy (strip (slice text start (cut_end self text start))) = true →
     P (strip (slice text start (cut_end self text start)))) →
  ∀ fuel start chunks result,
    0 ≤ start → Forall P chunks →
    split_loop fuel self text start chunks = Some result →
    Forall P result.
Proof.
  intros Hstep fuel.
  induction fuel as [|fuel IH]; intros start chunks result Hs Hchunks;
    rewrite split_loop_unfold;
    (destruct (start <? len text); [|by intros [= <-]]); [done|].
  apply IH; [apply next_start_nonneg|].
  unfold window_step. cbn [snd].
  destruct (truthy (strip (slice text start (cut_end self text start)))) eqn:E;
    [|done].
  apply Forall_app. split; [done|]. constructor; [|done]. by apply Hstep.
Qed.

(** X1. A text longer than the chunk size goes through the window loop,
    and every chunk the loop returns is non-empty and has no whitespace
    left at either end. *)
Theorem split_text_chunks_stripped fuel self text chunks :
  chunk_size self < len text →
  _split_text fuel self text = Some chunks →
  Forall (λ c, c ≠ "" ∧ strip c = c) chunks.
Proof.
  intros Hlong. unfold _split_text.
  destruct (len text <=? chunk_size self) eqn:E; [apply Z.leb_le in E; lia|].
  apply (split_loop_invariant (λ c, c ≠ "" ∧ strip c = c)); [|done|constructor].
  intros start _ Htruthy. split.
  - intros Hempty. by rewrite Hempty in Htruthy.
  - apply strip_idempotent.
Qed.

Lemma split_text_chunks_stripped_example :
  let self := {| chunk_size := 5; chunk_overlap := 2 |} in
  _split_text 10 self "A. B. C." = Some ["A."; ". B."; ". C."; "."]
  ∧ Forall (λ c, c ≠ "" ∧ strip c = c) ["A."; ". B."; ". C."; "."].
Proof.
  intros self. split; [reflexivity|].
  apply (split_text_chunks_stripped 10 self "A. B. C."); reflexivity.
Defined.

(** X2. With a non-negative chunk size, no returned chunk is longer than
    the chunk size, whichever path produced it. *)
Theorem split_text_chunk_bound fuel self text chunks :
  0 ≤ chunk_size self →
  _split_text fuel self text = Some chunks →
  Forall (λ c, len c ≤ chunk_size self) chunks.
Proof.
  intros Hsize. unfold _split_text.
  destruct (len text <=? chunk_size self) eqn:E.
  - apply Z.leb_le in E. intros [= <-]. by repeat constructor.
  - apply (split_loop_invariant (λ c, len c ≤ chunk_size self));
      [|done|constructor].
    intros start Hs _.
    pose proof (strip_len (slice text start (cut_end self text start))).
    pose proof (cut_end_upper self text start Hs Hsize).
    destruct (cut_end_lower self text start Hs).
    + pose proof (slice_len text start (cut_end self text start)). lia.
    + pose proof (slice_len text start (cut_end self text start)). lia.
Qed.

Lemma split_text_chunk_bound_example :
  let self := {| chunk_size := 5; chunk_overlap := 2 |} in
  Forall (λ c, len c ≤ 5) ["abcde"; "defgh"; "ghijk"; "jklmn"; "mnopq"; "pq"].
Proof.
  intros self.
  apply (split_text_chunk_bound 10 self "abcdefghijklmnopq"); [done|reflexivity].
Defined.

(** X3. When the overlap is below the chunk size and at most 1, the split
    returns for every text, within [len text] passes of the loop: every
    marker is two characters long, so even a snapped cut clears the
    overlap. *)
Theorem split_text_returns_with_small_overlap self text :
  chunk_overlap self < chunk_size self →
  chunk_overlap self ≤ 1 →
  is_Some (_split_text (Z.to_nat (len text)) self text).
Proof.
  intros Hlt Hsmall. unfold _split_text.
  destruct (len text <=? chunk_size self); [done|].
  apply split_loop_returns_when_cut_clears_overlap.
  intros s [Hs _]. destruct (cut_end_lower self text s Hs); lia.
Qed.

Lemma split_text_returns_with_small_overlap_example :
  let self := {| chunk_size := 5; chunk_overlap := 1 |} in
  is_Some (_split_text 11 self "A. bbbbbbbb")
  ∧ _split_text 11 self "A. bbbbbbbb" = Some ["A."; "bbbb"; "bbbbb"; "b"].
Proof.
  intros self. split; [|reflexivity].
  apply (split_text_returns_with_small_overlap self "A. bbbbbbbb"); reflexivity.
Defined.

(** At one amount of fuel, the document runs out exactly when one of its
    segments does. *)
Lemma chunk_document_none_at_fuel fuel self doc filename :
  chunk_document fuel self doc filename = None
  ↔ Exists (λ p, _split_text fuel self (text p) = None) (content doc).
Proof.
  unfold chunk_document. generalize (@nil chunk) as chunks.
  induction (content doc) as [|p parts IH]; intros chunks; simpl.
  - split; [done|]. by intros ?%Exists_nil.
  - rewrite Exists_cons. destruct (_split_text fuel self (text p)) eqn:E.
    + rewrite IH. split; [by right|]. by intros [?|?].
    + split; [by left|done].
Qed.

(** More fuel does not change a result already reached. *)
Lemma split_loop_mono fuel : ∀ fuel' self text start chunks result,
  (fuel ≤ fuel')%nat →
  split_loop fuel self text start chunks = Some result →
  split_loop fuel' self text start chunks = Some result.
Proof.
  induction fuel as [|fuel IH]; intros fuel' self text start chunks result Hle;
    rewrite !(split_loop_unfold _ self text start chunks);
    destruct (start <? len text); try done.
  destruct fuel' as [|fuel']; [lia|]. apply IH. lia.
Qed.

Lemma split_text_mono fuel fuel' self text result :
  (fuel ≤ fuel')%nat →
  _split_text fuel self text = Some result →
  _split_text fuel' self text = Some result.
Proof.
  unfold _split_text. destruct (len text <=? chunk_size self); [done|].
  apply split_loop_mono.
Qed.

Lemma chunk_document_some_at_fuel fuel self doc filename :
  is_Some (chunk_document fuel self doc filename)
  ↔ Forall (λ p, is_Some (_split_text fuel self (text p))) (content doc).
Proof.
  rewrite <- not_eq_None_Some, chunk_document_none_at_fuel.
  rewrite <- Forall_Exists_neg. apply Forall_proper; [|done].
  intros p. by rewrite not_eq_None_Some.
Qed.

(** X4. [chunk_document] returns, given fuel enough, exactly when the
    split returns on the text of every segment; and when the split of one
    segment returns for no amount of fuel, neither does the document: one
    stalling segment holds up the whole document. *)
Theorem chunk_document_returns_iff self doc filename :
  ((∃ fuel, is_Some (chunk_document fuel self doc filename))
   ↔ Forall (λ p, ∃ fuel, is_Some (_split_text fuel self (text p)))
            (content doc))
  ∧ (Exists (λ p, ∀ fuel, _split_text fuel self (text p) = None) (content doc)
     → ∀ fuel, chunk_document fuel self doc filename = None).
Proof.
  split; [split|].
  - intros [fuel H]. apply chunk_document_some_at_fuel in H.
    eapply Forall_impl; [exact H|]. intros p Hp. by exists fuel.
  - intros Hall.
    assert (Hmax : ∃ fuel, Forall (λ p, is_Some (_split_text fuel self (text p)))
                             (content doc)).
    { induction Hall as [|p parts [f [r Hf]] _ [F HF]].
      - exists 0%nat. constructor.
      - exists (f `max` F)%nat. constructor.
        + exists r. apply (split_text_mono f); [lia|done].
        + eapply Forall_impl; [exact HF|]. intros q [rq Hq].
          exists rq. apply (split_text_mono F); [lia|done]. }
    destruct Hmax as [fuel Hfuel]. exists fuel.
    by apply chunk_document_some_at_fuel.
  - intros Hstall fuel. apply chunk_document_none_at_fuel.
    eapply Exists_impl; [exact Hstall|]. intros p Hp. apply Hp.
Qed.

Lemma chunk_document_returns_iff_example :
  let self := {| chunk_size := 5; chunk_overlap := 2 |} in
  chunk_document 1000 self (_load_txt "A. bbbbbbbb") "notes.txt" = None
  ∧ ∃ fuel, is_Some (chunk_document fuel self (_load_txt "A. B. C.") "notes.txt").
Proof.
  intros self. split.
  - apply (proj2 (chunk_document_returns_iff self (_load_txt "A. bbbbbbbb")
                    "notes.txt")).
    apply Exists_cons_hd. exact (proj2 (proj2 (proj2 split_text_stalls_small))).
  - apply (proj1 (chunk_document_returns_iff self (_load_txt "A. B. C.")
                    "notes.txt")).
    constructor; [|constructor]. exists 10%nat. by eexists.
Defined.

End ChunkerInvariants.

(** ** The loaders and the chunk metadata *)

Section Loaders.
Import Py DocumentLoader Aux.

Lemma elem_of_enumerate {A} (l : list A) (start z : Z) (x : A) :
  (z, x) ∈ enumerate start l
  ↔ ∃ i : nat, l !! i = Some x ∧ z = start + Z.of_nat i.
Proof.
  rewrite list_elem_of_lookup. split.
  - intros [i Hi]. rewrite enumerate_lookup in Hi.
    destruct (l !! i) eqn:E; simplify_eq/=. eauto.
  - intros (i & Hi & ->). exists i. by rewrite enumerate_lookup, Hi.
Qed.

(** X5. The PDF loader skips the pages whose text is blank and numbers the
    remaining segments by their page in the file, counted from 1: the
    numbers are not closed up after a skipped page, and [total_pages]
    counts every page. *)
Theorem load_pdf_keeps_page_numbers pages p :
  (p ∈ content (_load_pdf pages)
   ↔ ∃ (i : nat) t,
       pages !! i = Some t ∧ strip t ≠ ""
       ∧ p = {| text := t; attrs := {[ "page" := PInt (1 + Z.of_nat i) ]} |})
  ∧ total (_load_pdf pages) = Some ("total_pages", llen pages).
Proof.
  split; [|done]. simpl. rewrite list_elem_of_omap. split.
  - intros ([z t] & Hin & Hp). apply elem_of_enumerate in Hin as (i & Hi & ->).
    destruct (strip t) eqn:E; simplify_eq/=.
    exists i, t. by rewrite E.
  - intros (i & t & Hi & Hne & ->). exists (1 + Z.of_nat i, t). split.
    + apply elem_of_enumerate. eauto.
    + by destruct (strip t).
Qed.

(** X6. The DOCX loader does the same with paragraphs: blank ones are
    skipped, the others keep their position in the file, counted from 1. *)
Theorem load_docx_keeps_paragraph_numbers paragraphs p :
  (p ∈ content (_load_docx paragraphs)
   ↔ ∃ (i : nat) t,
       paragraphs !! i = Some t ∧ strip t ≠ ""
       ∧ p = {| text := t;
                attrs := {[ "paragraph" := PInt (Z.of_nat i + 1) ]} |})
  ∧ total (_load_docx paragraphs)
    = Some ("total_paragraphs", llen paragraphs).
Proof.
  split; [|done]. simpl. rewrite list_elem_of_omap. split.
  - intros ([z t] & Hin & Hp). apply elem_of_enumerate in Hin as (i & Hi & ->).
    destruct (strip t) eqn:E; simplify_eq/=.
    exists i, t. by rewrite E.
  - intros (i & t & Hi & Hne & ->). exists (Z.of_nat i, t). split.
    + apply elem_of_enumerate. exists i. split; [done|lia].
    + by destruct (strip t).
Qed.

(** X7. The CSV loader yields one segment for the header line, with row
    0, and then one segment per data row, in order, row [k] of the data
    carrying row number [k + 1]. *)
Theorem load_csv_rows columns rows :
  length (content (_load_csv columns rows)) = S (length rows)
  ∧ (attrs <$> content (_load_csv columns rows) !! 0%nat)
    = Some {[ "row" := PInt 0 ]}
  ∧ ∀ (k : nat) row,
      rows !! k = Some row →
      content (_load_csv columns rows) !! S k
      = Some {| text := join " | " (map (λ '(col, val), col +:+ ": " +:+ val) row);
                attrs := {[ "row" := PInt (Z.of_nat k + 1) ]} |}.
Proof.
  simpl. rewrite length_map, enumerate_length. repeat split.
  intros k row Hk. rewrite list_lookup_fmap, enumerate_lookup, Hk. simpl.
  by rewrite Z.add_0_l.
Qed.

Lemma load_csv_rows_example :
  content (_load_csv ["name"; "city"] [[("name", "Ann"); ("city", "Oslo")]])
    !! 1%nat
  = Some {| text := "name: Ann | city: Oslo";
            attrs := {[ "row" := PInt 1 ]} |}.
Proof.
  exact (proj2 (proj2 (load_csv_rows ["name"; "city"]
                         [[("name", "Ann"); ("city", "Oslo")]]))
           0%nat [("name", "Ann"); ("city", "Oslo")] eq_refl).
Defined.

(** X8. In a chunk's metadata an item of the segment wins over the
    computed [source], [type] and [chunk_index] of the same name, and the
    segment's ['text'] is never copied. *)
Theorem make_metadata_lookup filename doc_type i p k :
  make_metadata filename doc_type i p !! k
  = match (if decide (k = "text") then None else attrs p !! k) with
    | Some v => Some v
    | None =>
        if decide (k = "source") then Some (PStr filename)
        else if decide (k = "type") then Some (PStr doc_type)
        else if decide (k = "chunk_index") then Some (PInt i)
        else None
    end.
Proof.
  unfold make_metadata. rewrite lookup_union, lookup_delete.
  destruct (decide ("text" = k)) as [<-|Hne].
  - rewrite decide_True by done. by simplify_map_eq.
  - rewrite decide_False by done.
    destruct (attrs p !! k) as [v|]; simpl.
    + by destruct (_ !! k).
    + repeat case_decide; simplify_map_eq; done.
Qed.

End Loaders.

(** ** Sources, context and confidence *)

Section Retrieval.
Import Py RAGEngine Aux.

Lemma format_loop_spec docs : ∀ sources seen,
  (∀ x, x ∈ seen ↔ x ∈ map source sources) →
  NoDup (map source sources) →
  NoDup (map source (format_loop docs sources seen))
  ∧ (∀ x, x ∈ map source (format_loop docs sources seen)
          ↔ x ∈ map source sources ∨ x ∈ map source_of docs)
  ∧ (length (format_loop docs sources seen) ≤ length sources + length docs)%nat.
Proof.
  induction docs as [|doc docs IH]; intros sources seen Hseen Hnd; simpl.
  - split; [done|]. split; [|lia]. intros x. rewrite elem_of_nil. tauto.
  - case_bool_decide as Hin.
    + destruct (IH sources seen Hseen Hnd) as (H1 & H2 & H3).
      split; [done|]. split; [|lia].
      intros x. rewrite H2, elem_of_cons. split; [tauto|].
      intros [?|[->|?]]; [tauto| |tauto]. left. by apply Hseen.
    + destruct (IH (sources ++ [source_entry doc]) (source_of doc :: seen))
        as (H1 & H2 & H3).
      * intros x. rewrite map_app, elem_of_app, elem_of_cons, Hseen. simpl.
        rewrite list_elem_of_singleton. tauto.
      * rewrite map_app. apply NoDup_app. split; [done|]. split.
        -- intros x Hx. simpl. rewrite list_elem_of_singleton. intros ->.
           by apply Hin, Hseen.
        -- simpl. apply NoDup_singleton.
      * split; [done|]. split.
        -- intros x. rewrite H2, map_app, elem_of_app, elem_of_cons. simpl.
           rewrite list_elem_of_singleton. tauto.
        -- rewrite length_app in H3. unfold source_entry in H3. simpl in H3. lia.
Qed.

Lemma format_loop_keeps docs : ∀ sources seen e,
  e ∈ sources → e ∈ format_loop docs sources seen.
Proof.
  induction docs as [|doc docs IH]; intros sources seen e He; simpl; [done|].
  case_bool_decide; apply IH; [done|]. apply elem_of_app. by left.
Qed.

Lemma format_loop_first before : ∀ doc after sources seen,
  source_of doc ∉ seen →
  source_of doc ∉ map source_of before →
  source_entry doc ∈ format_loop (before ++ doc :: after) sources seen.
Proof.
  induction before as [|b before IH]; intros doc after sources seen Hseen Hb; simpl.
  - rewrite bool_decide_eq_false_2 by done.
    apply format_loop_keeps, elem_of_app. right. by apply list_elem_of_singleton.
  - simpl in Hb. apply not_elem_of_cons in Hb as [Hne Hb].
    case_bool_decide; apply IH; try done.
    apply not_elem_of_cons. done.
Qed.

(** X9. [_format_sources] lists every source name of the hits exactly
    once, and nothing else, and the entry of a name is the one built from
    the first hit that carries it. *)
Theorem format_sources_dedup docs :
  NoDup (map source (_format_sources docs))
  ∧ (∀ x, x ∈ map source (_format_sources docs) ↔ x ∈ map source_of docs)
  ∧ (length (_format_sources docs) ≤ length docs)%nat
  ∧ (∀ before doc after,
       docs = before ++ doc :: after →
       source_of doc ∉ map source_of before →
       source_entry doc ∈ _format_sources docs).
Proof.
  unfold _format_sources.
  destruct (format_loop_spec docs [] []) as (H1 & H2 & H3).
  { intros x. simpl. tauto. }
  { simpl. apply NoDup_nil_2. }
  split; [done|]. split; [|split; [simpl in H3; lia|]].
  - intros x. rewrite H2. simpl. rewrite elem_of_nil. tauto.
  - intros before doc after -> Hfirst.
    apply format_loop_first; [apply not_elem_of_nil|done].
Qed.

Lemma format_sources_dedup_example :
  let docs := [hit_at "a.txt" "one" (1 # 4); hit_at "b.txt" "two" (1 # 2);
               hit_at "a.txt" "three" (3 # 4)] in
  source_entry (hit_at "a.txt" "one" (1 # 4)) ∈ _format_sources docs
  ∧ map source (_format_sources docs) = [PStr "a.txt"; PStr "b.txt"].
Proof.
  intros docs. split; [|reflexivity].
  apply (proj2 (proj2 (proj2 (format_sources_dedup docs))) []
           (hit_at "a.txt" "one" (1 # 4))
           [hit_at "b.txt" "two" (1 # 2); hit_at "a.txt" "three" (3 # 4)]).
  - reflexivity.
  - apply not_elem_of_nil.
Defined.

Lemma join_head_nonempty sep p rest : p ≠ "" → join sep (p :: rest) ≠ "".
Proof. destruct p; [done|]. intros _. by destruct rest. Qed.

Lemma block_nonempty i doc : block i doc ≠ "".
Proof. done. Qed.

Lemma build_context_empty cfg docs :
  _build_context cfg docs = "" ↔ Forall (λ doc, passes cfg doc = false) docs.
Proof.
  rewrite build_context_spec. unfold ranked_blocks.
  assert (Hfilter : ∀ start,
    List.filter (λ '(i, doc), passes cfg doc) (enumerate start docs) = []
    ↔ Forall (λ doc, passes cfg doc = false) docs).
  { induction docs as [|doc docs IH]; intros start; simpl.
    - split; [constructor|done].
    - rewrite Forall_cons. destruct (passes cfg doc).
      + split; [done|]. by intros [? _].
      + rewrite IH. split; [done|]. by intros [_ ?]. }
  rewrite <- (Hfilter 1).
  destruct (List.filter _ (enumerate 1 docs)) as [|[i doc] kept]; [done|].
  simpl map. split; [|done].
  intros H. by apply join_head_nonempty in H; [|apply block_nonempty].
Qed.

(** X10. The assembled context is the empty string exactly when no hit
    passes the threshold test (in particular for no hits at all). *)
Theorem build_context_empty_iff cfg docs :
  _build_context cfg docs = "" ↔ Forall (λ doc, passes cfg doc = false) docs.
Proof. apply build_context_empty. Qed.

(** X11. The confidence only looks at the first three hits. *)
Theorem confidence_uses_first_three docs :
  _calculate_confidence docs = _calculate_confidence (take 3 docs).
Proof.
  destruct docs as [|d docs]; [done|].
  unfold _calculate_confidence. change (take 3 (d :: docs)) with (d :: take 2 docs).
  change (take 3 (d :: take 2 docs)) with (d :: take 2 (take 2 docs)).
  by rewrite take_take.
Qed.

(** X12. A [top_k] of 0 counts as absent: the search is asked for the
    configured number of results; any other given number is handed on
    as it is. *)
Theorem query_top_k_zero_is_default
    (search : string → Z → option (gmap string pyval) → outcome search_result)
    (generate :
      string → string → option (list (string * string)) → outcome claude_response)
    (start_time end_time : Q) cfg user_query history filter_metadata :
  query search generate start_time end_time cfg user_query history
    filter_metadata (Some 0)
  = query search generate start_time end_time cfg user_query history
      filter_metadata None
  ∧ effective_top_k cfg (Some 0) = Config.TOP_K_RESULTS cfg
  ∧ ∀ k, k ≠ 0 → effective_top_k cfg (Some k) = k.
Proof.
  split; [done|]. split; [done|].
  intros k Hk. unfold effective_top_k. simpl.
  by apply Z.eqb_neq in Hk as ->.
Qed.

Lemma query_top_k_zero_is_default_example :
  effective_top_k Config.settings (Some 0) = 5
  ∧ effective_top_k Config.settings (Some 3) = 3.
Proof.
  destruct (query_top_k_zero_is_default (λ _ _ _, Raise {| exc_class := "E"; exc_message := "m" |})
              (λ _ _ _, Raise {| exc_class := "E"; exc_message := "m" |})
              0 1 Config.settings "q" None None) as (_ & H0 & Hk).
  split; [exact H0|]. apply Hk. discriminate.
Defined.

(** X13. When the search returns hits of which none passes the threshold
    and the generation returns, [query] has asked the generation with an
    empty context and still reports the hits: their sources, their number
    and their confidence. *)
Theorem query_without_grounding
    (search : string → Z → option (gmap string pyval) → outcome search_result)
    (generate :
      string → string → option (list (string * string)) → outcome claude_response)
    (start_time end_time : Q) cfg user_query history filter_metadata top_k
    found reply :
  search user_query (effective_top_k cfg top_k) filter_metadata = Return found →
  Forall (λ doc, passes cfg doc = false) (results found) →
  generate user_query "" history = Return reply →
  ∃ res,
    fst (query search generate start_time end_time cfg user_query history
           filter_metadata top_k) = Return res
    ∧ answer res = response reply
    ∧ sources res = _format_sources (results found)
    ∧ retrieved_chunks res = llen (results found)
    ∧ confidence res = _calculate_confidence (results found).
Proof.
  intros Hs Hnone Hg. unfold query. rewrite Hs.
  apply build_context_empty in Hnone. rewrite Hnone, Hg.
  eexists. split; [reflexivity|]. done.
Qed.

Lemma query_without_grounding_example :
  let found := {| results := [hit_at "a.txt" "one" (1 # 2)];
                  sr_query := "q"; sr_total := 1 |} in
  let reply := {| response := "I do not know."; model := "m";
                  usage := (10, 5); stop_reason := "end_turn" |} in
  let search := λ _ _ _, Return found in
  let generate := λ _ (context : string) _,
    if truthy context
    then Raise {| exc_class := "AssertionError"; exc_message := "context" |}
    else Return reply in
  ∃ res,
    fst (query search generate 0 1 Config.settings "q" None None None)
      = Return res
    ∧ answer res = "I do not know."
    ∧ sources res = [source_entry (hit_at "a.txt" "one" (1 # 2))]
    ∧ retrieved_chunks res = 1
    ∧ confidence res = _calculate_confidence [hit_at "a.txt" "one" (1 # 2)].
Proof.
  intros found reply search generate.
  apply (query_without_grounding search generate 0 1 Config.settings "q"
           None None None found reply).
  - reflexivity.
  - repeat constructor.
  - reflexivity.
Defined.

End Retrieval.

(** ** The generation client *)

Section Generation.
Import Py RAGEngine ClaudeClient Aux.

Lemma slice_from_last {A} (l : list A) (k : Z) :
  0 < k → slice_from l (- k) = lastn (Z.to_nat k) l.
Proof.
  intros Hk. destruct (decide (k ≤ llen l)) as [Hle|Hgt].
  - by apply slice_from_negative.
  - unfold slice_from, adjust_index, lastn, llen in *.
    destruct (- k <? 0) eqn:E; [|apply Z.ltb_ge in E; lia].
    f_equal. lia.
Qed.

(** X14. The messages sent to the model are the last ten entries of the
    conversation history (all of them when there are fewer), in order,
    followed by the user's message: at most eleven messages, the last one
    always the user's. *)
Theorem build_messages_spec user_message history :
  build_messages user_message history
  = lastn 10 (default [] history) ++ [("user", user_message)]
  ∧ (length (build_messages user_message history) ≤ 11)%nat
  ∧ last (build_messages user_message history) = Some ("user", user_message).
Proof.
  assert (Heq : build_messages user_message history
                = lastn 10 (default [] history) ++ [("user", user_message)]).
  { unfold build_messages. destruct history as [[|m h]|]; try done.
    rewrite (fold_left_snoc _ (λ x, x)) by (by intros acc [r c]).
    change (-10) with (Z.opp 10).
    rewrite (slice_from_last (m :: h) 10) by lia.
    by rewrite map_id. }
  rewrite Heq. split; [done|]. split.
  - rewrite length_app, lastn_length. simpl. lia.
  - by rewrite last_snoc.
Qed.

(** X15. The system prompt built from the assembled context is the bare
    base prompt when no hit passes the threshold, and the base prompt
    followed by the knowledge-base section around the context when some
    hit does. *)
Theorem system_prompt_of_context cfg docs :
  (Forall (λ doc, passes cfg doc = false) docs →
   _build_system_prompt (Some (_build_context cfg docs)) = base_prompt)
  ∧ (Exists (λ doc, passes cfg doc = true) docs →
     _build_system_prompt (Some (_build_context cfg docs))
     = base_prompt +:+ context_prompt (_build_context cfg docs)).
Proof.
  split.
  - intros H. apply build_context_empty in H. by rewrite H.
  - intros H. simpl.
    destruct (_build_context cfg docs) eqn:E; [|done].
    apply build_context_empty in E.
    apply Exists_exists in H as (doc & Hin & Hp).
    rewrite Forall_forall in E. specialize (E doc Hin). congruence.
Qed.

Lemma system_prompt_of_context_example :
  _build_system_prompt
    (Some (_build_context Config.settings [hit_at "a.txt" "one" (1 # 2)]))
  = base_prompt.
Proof.
  apply (proj1 (system_prompt_of_context Config.settings
                  [hit_at "a.txt" "one" (1 # 2)])).
  repeat constructor.
Defined.

(** X16. When the messages endpoint raises, [generate_response] logs and
    raises the same exception, and so does a [query] that runs on this
    client after a successful search. *)
Theorem endpoint_failure_is_reraised
    (create : string → Z → Q → string → list (string * string)
              → outcome api_response)
    (search : string → Z → option (gmap string pyval) → outcome search_result)
    (client : ClaudeClient.t) (start_time end_time : Q) cfg user_query history
    filter_metadata top_k found e :
  (∀ system messages,
     create (ClaudeClient.model client) (max_tokens client)
            (temperature client) system messages = Raise e) →
  search user_query (effective_top_k cfg top_k) filter_metadata = Return found →
  (∀ context,
     generate_response create client user_query context history None
     = (Raise e,
        [(ERROR, "Error generating Claude response: " +:+ exc_message e)]))
  ∧ fst (query search
           (λ q context h,
              fst (generate_response create client q (Some context) h None))
           start_time end_time cfg user_query history filter_metadata top_k)
    = Raise e.
Proof.
  intros Hcreate Hsearch.
  assert (Hgen : ∀ context,
    generate_response create client user_query context history None
    = (Raise e, [(ERROR, "Error generating Claude response: " +:+ exc_message e)])).
  { intros context. unfold generate_response. by rewrite Hcreate. }
  split; [exact Hgen|].
  unfold query. rewrite Hsearch. by rewrite Hgen.
Qed.

Lemma endpoint_failure_is_reraised_example :
  let e := {| exc_class := "APIConnectionError";
              exc_message := "connection refused" |} in
  let found := {| results := []; sr_query := "q"; sr_total := 0 |} in
  let client := {| ClaudeClient.model := "m"; max_tokens := 4096;
                   temperature := 7 # 10 |} in
  fst (query (λ _ _ _, Return found)
         (λ q context h,
            fst (generate_response (λ _ _ _ _ _, Raise e) client q
                   (Some context) h None))
         0 1 Config.settings "q" None None None)
  = Raise e.
Proof.
  intros e found client.
  apply (endpoint_failure_is_reraised (λ _ _ _ _ _, Raise e)
           (λ _ _ _, Return found) client 0 1 Config.settings "q" None None
           None found e); reflexivity.
Defined.

End Generation.

(** ** Session memory: reading *)

Section Reading.
Import Py ConversationMemory Aux.

Lemma get_history_last sid limit self :
  0 < limit →
  fst (get_history sid (Some limit) self)
  = lastn (Z.to_nat limit) (stored sid self)
  ∧ llen (fst (get_history sid (Some limit) self)) ≤ limit
  ∧ snd (get_history sid (Some limit) self) = self.
Proof.
  intros Hpos. unfold get_history. simpl.
  destruct (limit =? 0) eqn:E; [apply Z.eqb_eq in E; lia|]. simpl.
  fold (stored sid self). rewrite slice_from_last by done.
  split; [done|]. split; [|done].
  unfold llen. rewrite lastn_length. lia.
Qed.

(** X17. With a positive limit [get_history] answers with the most recent
    [limit] messages, oldest first, or with all of them when there are
    fewer. *)
Theorem get_history_positive_limit sid limit self :
  0 < limit →
  fst (get_history sid (Some limit) self)
  = lastn (Z.to_nat limit) (stored sid self)
  ∧ llen (fst (get_history sid (Some limit) self)) ≤ limit
  ∧ snd (get_history sid (Some limit) self) = self.
Proof. apply get_history_last. Qed.

Lemma get_history_positive_limit_example :
  let cfg := Config.settings in
  let self1 := fst (add_message cfg (λ _, 0) "s" "user" "one" None init) in
  let self2 := fst (add_message cfg (λ _, 0) "s" "assistant" "two" None self1) in
  let self3 := fst (add_message cfg (λ _, 0) "s" "user" "three" None self2) in
  map content (fst (get_history "s" (Some 2) self3)) = ["two"; "three"].
Proof.
  intros cfg self1 self2 self3.
  rewrite (proj1 (get_history_positive_limit "s" 2 self3 eq_refl)).
  reflexivity.
Defined.

(** X18. A negative limit is not refused: [history[-limit:]] then drops
    the oldest [|limit|] messages and answers with the rest. *)
Theorem get_history_negative_limit sid limit self :
  limit < 0 →
  fst (get_history sid (Some limit) self)
  = drop (Z.to_nat (- limit)) (stored sid self).
Proof.
  intros Hneg. unfold get_history. simpl.
  destruct (limit =? 0) eqn:E; [apply Z.eqb_eq in E; lia|]. simpl.
  fold (stored sid self). unfold slice_from, adjust_index.
  destruct (- limit <? 0) eqn:E'; [apply Z.ltb_lt in E'; lia|].
  destruct (decide (- limit ≤ llen (stored sid self))) as [Hle|Hgt].
  - by rewrite Z.min_l.
  - rewrite Z.min_r by lia. unfold llen in *.
    rewrite Nat2Z.id, !drop_ge; [done|lia|lia].
Qed.

Lemma get_history_negative_limit_example :
  let cfg := Config.settings in
  let self1 := fst (add_message cfg (λ _, 0) "s" "user" "one" None init) in
  let self2 := fst (add_message cfg (λ _, 0) "s" "assistant" "two" None self1) in
  let self3 := fst (add_message cfg (λ _, 0) "s" "user" "three" None self2) in
  map content (fst (get_history "s" (Some (-1)) self3)) = ["two"; "three"].
Proof.
  intros cfg self1 self2 self3.
  rewrite (get_history_negative_limit "s" (-1) self3 eq_refl).
  reflexivity.
Defined.

End Reading.

(** ** Session memory: what every run of calls keeps *)

Section MemoryInvariants.
Import Py ConversationMemory Aux.

Lemma add_message_sessions cfg now sid role_ content_ metadata_ self :
  sessions (fst (add_message cfg now sid role_ content_ metadata_ self)) !! sid
  = Some (match sessions self !! sid with
          | Some s => set_last_activity (now 3%nat) s
          | None => {| session_id := sid; user_id := None;
                       created_at := now 0%nat;
                       last_activity := now 3%nat;
                       is_active := true; session_metadata := None |}
          end)
  ∧ ∀ sid', sid ≠ sid' →
      sessions (fst (add_message cfg now sid role_ content_ metadata_ self))
        !! sid'
      = sessions self !! sid'.
Proof.
  unfold add_message. destruct (sessions self !! sid) as [s|] eqn:E; simpl.
  - split.
    + by rewrite lookup_alter_eq, E.
    + intros sid' Hne. by rewrite lookup_alter_ne.
  - split.
    + by rewrite lookup_alter_eq, lookup_insert_eq.
    + intros sid' Hne. by rewrite lookup_alter_ne, lookup_insert_ne.
Qed.

Lemma apply_operation_no_orphan cfg op self :
  no_orphan_history self → no_orphan_history (apply_operation cfg self op).
Proof.
  intros Hinv sid. destruct op as [fresh now uid|now sid0 r c md|sid0|sid0|now];
    simpl.
  - intros H. destruct (decide (fresh = sid)) as [->|Hne].
    + by rewrite lookup_insert_eq.
    + rewrite lookup_insert_ne by done. by apply Hinv.
  - destruct (add_message_sessions cfg now sid0 r c md self) as [Hs Ho].
    destruct (decide (sid0 = sid)) as [->|Hne].
    + rewrite Hs. eauto.
    + rewrite Ho, add_message_stored_other by done. apply Hinv.
  - unfold clear_history. destruct (message_history self !! sid0) eqn:E; simpl.
    + destruct (decide (sid0 = sid)) as [->|Hne].
      * intros _. apply Hinv. by rewrite E.
      * rewrite lookup_insert_ne by done. apply Hinv.
    + apply Hinv.
  - unfold end_session. destruct (sessions self !! sid0) eqn:E; simpl.
    + intros H. apply Hinv in H.
      destruct (decide (sid0 = sid)) as [->|Hne].
      * rewrite lookup_alter_eq, E. eauto.
      * by rewrite lookup_alter_ne.
    + apply Hinv.
  - rewrite remove_all_sessions, remove_all_history.
    destruct (decide (sid ∈ expired_sessions cfg now self)).
    + by intros [? ?].
    + apply Hinv.
Qed.

(** X19. Whatever calls are made on a fresh memory, every stored history
    belongs to a session record, so that sweeping the session frees its
    messages. *)
Theorem run_no_orphan_history cfg ops :
  no_orphan_history (run cfg ops init).
Proof.
  unfold run. assert (Hinit : no_orphan_history init).
  { intros sid [h Hh]. simpl in Hh. by rewrite lookup_empty in Hh. }
  revert Hinit. generalize init as self.
  induction ops as [|op ops IH]; intros self Hinv; simpl; [done|].
  apply IH. by apply apply_operation_no_orphan.
Qed.

Lemma apply_operation_within cfg op self :
  1 ≤ Config.MAX_CONVERSATION_HISTORY cfg →
  let bound := Z.to_nat (2 * Config.MAX_CONVERSATION_HISTORY cfg) in
  histories_within bound self →
  histories_within bound (apply_operation cfg self op).
Proof.
  intros Hn bound Hinv sid history.
  destruct op as [fresh now uid|now sid0 r c md|sid0|sid0|now]; simpl.
  - apply Hinv.
  - destruct (decide (sid0 = sid)) as [->|Hne].
    + rewrite add_message_history, lookup_insert_eq. intros [= <-].
      rewrite trim_spec, lastn_length by done. fold bound. lia.
    + rewrite add_message_stored_other by done. apply Hinv.
  - unfold clear_history. destruct (message_history self !! sid0) eqn:E; simpl.
    + destruct (decide (sid0 = sid)) as [->|Hne].
      * rewrite lookup_insert_eq. intros [= <-]. simpl. lia.
      * rewrite lookup_insert_ne by done. apply Hinv.
    + apply Hinv.
  - unfold end_session. destruct (sessions self !! sid0); simpl; apply Hinv.
  - rewrite remove_all_history.
    destruct (decide (sid ∈ expired_sessions cfg now self)); [done|apply Hinv].
Qed.

(** X20. With [MAX_CONVERSATION_HISTORY = N >= 1], whatever calls are
    made on a fresh memory, on whichever sessions, no stored history is
    ever longer than [2N]. *)
Theorem run_histories_within cfg ops :
  1 ≤ Config.MAX_CONVERSATION_HISTORY cfg →
  histories_within (Z.to_nat (2 * Config.MAX_CONVERSATION_HISTORY cfg))
    (run cfg ops init).
Proof.
  intros Hn. unfold run.
  assert (Hinit : histories_within
                    (Z.to_nat (2 * Config.MAX_CONVERSATION_HISTORY cfg)) init).
  { intros sid h Hh. simpl in Hh. by rewrite lookup_empty in Hh. }
  revert Hinit. generalize init as self.
  induction ops as [|op ops IH]; intros self Hinv; simpl; [done|].
  apply IH. by apply apply_operation_within.
Qed.

Lemma run_histories_within_example :
  let cfg := with_max_history Config.settings 1 in
  let ops := [Add (λ _, 0) "s" "user" "one" None;
              Add (λ _, 1) "s" "assistant" "two" None;
              Add (λ _, 2) "s" "user" "three" None] in
  histories_within 2 (run cfg ops init)
  ∧ map content (stored "s" (run cfg ops init)) = ["two"; "three"].
Proof.
  intros cfg ops. split; [|vm_compute; reflexivity].
  apply (run_histories_within cfg ops). vm_compute. discriminate.
Defined.

End MemoryInvariants.

(** ** Session memory: the life of a session *)

Section SessionLife.
Import Py ConversationMemory Aux.

(** X21. [add_message] never fails on an unknown session: it files a
    minimal active record under the given identifier (no user, no
    metadata) and logs a warning; for a known session it only moves
    [last_activity]; no other session record is touched. *)
Theorem add_message_session_record cfg now sid role_ content_ metadata_ self :
  let out := add_message cfg now sid role_ content_ metadata_ self in
  sessions out.1 !! sid
  = Some (match sessions self !! sid with
          | Some s => set_last_activity (now 3%nat) s
          | None => {| session_id := sid; user_id := None;
                       created_at := now 0%nat;
                       last_activity := now 3%nat;
                       is_active := true; session_metadata := None |}
          end)
  ∧ out.2 = match sessions self !! sid with
            | Some _ => []
            | None => [(RAGEngine.WARNING,
                        "Session " +:+ sid +:+ " not found, creating new session")]
            end
  ∧ ∀ sid', sid ≠ sid' → sessions out.1 !! sid' = sessions self !! sid'.
Proof.
  intros out. subst out.
  destruct (add_message_sessions cfg now sid role_ content_ metadata_ self)
    as [Hs Ho].
  split; [exact Hs|]. split; [|exact Ho].
  unfold add_message. by destruct (sessions self !! sid).
Qed.

(** X22. Ending a session does not close it to messages: a later
    [add_message] is stored and moves [last_activity], and the session
    stays inactive. *)
Theorem add_message_after_end cfg now sid role_ content_ metadata_ self s :
  sessions self !! sid = Some s →
  let ended := (end_session sid self).1 in
  let after := (add_message cfg now sid role_ content_ metadata_ ended).1 in
  sessions after !! sid
  = Some (set_last_activity (now 3%nat) (set_inactive s))
  ∧ stored sid after
    = trim (Config.MAX_CONVERSATION_HISTORY cfg)
        (stored sid self
         ++ [message_of {| a_now := now; a_role := role_;
                           a_content := content_; a_metadata := metadata_ |}])
  ∧ sid ∉ (get_all_active_sessions after).1.
Proof.
  intros Hs ended after.
  assert (Hended : sessions ended !! sid = Some (set_inactive s)).
  { unfold ended, end_session. rewrite Hs. simpl.
    by rewrite lookup_alter_eq, Hs. }
  assert (Hafter : sessions after !! sid
                   = Some (set_last_activity (now 3%nat) (set_inactive s))).
  { unfold after.
    rewrite (proj1 (add_message_sessions cfg now sid role_ content_ metadata_ ended)).
    by rewrite Hended. }
  split; [exact Hafter|]. split.
  - unfold after. rewrite add_message_stored. f_equal. f_equal.
    unfold stored, ended, end_session. by rewrite Hs.
  - simpl. rewrite list_elem_of_omap. intros ([sid' s'] & Hin & Hact).
    apply elem_of_map_to_list in Hin.
    destruct (is_active s') eqn:E; simplify_eq.
Qed.

Lemma add_message_after_end_example :
  let self := (create_session "s" (λ _, 0) None init).1.2 in
  let ended := (end_session "s" self).1 in
  let after := (add_message Config.settings (λ _, 5) "s" "user" "hello" None
                  ended).1 in
  (is_active <$> sessions after !! "s") = Some false
  ∧ (last_activity <$> sessions after !! "s") = Some 5
  ∧ "s" ∉ (get_all_active_sessions after).1.
Proof.
  intros self ended after.
  destruct (add_message_after_end Config.settings (λ _, 5) "s" "user" "hello"
              None self
              {| session_id := "s"; user_id := Some None; created_at := 0;
                 last_activity := 0; is_active := true;
                 session_metadata := Some ∅ |})
    as (H1 & _ & H3).
  - vm_compute. reflexivity.
  - fold ended in H1, H3. fold after in H1, H3.
    rewrite H1. by repeat split.
Defined.

(** X23. [clear_history] empties the history of a session that has one
    and leaves every session record, and every other history, as it was;
    for an identifier without a history it changes nothing at all. *)
Theorem clear_history_effect sid self :
  let after := (clear_history sid self).1 in
  sessions after = sessions self
  ∧ (get_history sid None after).1 = []
  ∧ (∀ sid', sid ≠ sid' →
       message_history after !! sid' = message_history self !! sid')
  ∧ (message_history self !! sid = None → after = self).
Proof.
  intros after. subst after. unfold clear_history, get_history.
  destruct (message_history self !! sid) as [h|] eqn:E; simpl.
  - rewrite lookup_insert_eq. repeat split; try done.
    intros sid' Hne. by rewrite lookup_insert_ne.
  - by rewrite E.
Qed.

(** X24. [get_all_active_sessions] lists, once each, exactly the
    identifiers of the session records whose [is_active] is true. *)
Theorem active_sessions_spec self :
  NoDup (get_all_active_sessions self).1
  ∧ (∀ sid, sid ∈ (get_all_active_sessions self).1
            ↔ ∃ s, sessions self !! sid = Some s ∧ is_active s = true)
  ∧ (get_all_active_sessions self).2 = self.
Proof.
  simpl. split; [|split; [|done]].
  - pose proof (NoDup_fst_map_to_list (sessions self)) as Hnd.
    induction (map_to_list (sessions self)) as [|[sid s] l IH]; simpl;
      [constructor|].
    simpl in Hnd. apply NoDup_cons in Hnd as [Hsid Hnd].
    destruct (is_active s); simpl; [|by apply IH].
    apply NoDup_cons. split; [|by apply IH].
    rewrite list_elem_of_omap. intros ([sid' s'] & Hin & Hact).
    destruct (is_active s'); simplify_eq.
    apply Hsid, list_elem_of_fmap. by exists (sid, s').
  - intros sid. rewrite list_elem_of_omap. split.
    + intros ([sid' s] & Hin & Hact). apply elem_of_map_to_list in Hin.
      destruct (is_active s) eqn:E; simplify_eq. eauto.
    + intros (s & Hs & Hact). exists (sid, s). split.
      * by apply elem_of_map_to_list.
      * by rewrite Hact.
Qed.

End SessionLife.

(** ** Session memory: statistics and expiry after activity *)

Section StatsAndExpiry.
Import Py ConversationMemory Aux.

Lemma add_message_session_record_example :
  let out := add_message Config.settings (λ k, Z.of_nat k) "ghost" "user" "hi"
               None init in
  (is_active <$> sessions out.1 !! "ghost") = Some true
  ∧ (user_id <$> sessions out.1 !! "ghost") = Some None
  ∧ sessions out.1 !! "other" = None.
Proof.
  intros out.
  destruct (add_message_session_record Config.settings (λ k, Z.of_nat k)
              "ghost" "user" "hi" None init) as (H1 & _ & H3).
  fold out in H1, H3. rewrite H1, (H3 "other") by done. by repeat split.
Defined.

Lemma clear_history_effect_example :
  let self := (add_message Config.settings (λ _, 0) "s" "user" "hi" None init).1 in
  (get_history "s" None (clear_history "s" self).1).1 = []
  ∧ (clear_history "t" self).1 = self.
Proof.
  intros self.
  destruct (clear_history_effect "s" self) as (_ & H2 & _).
  destruct (clear_history_effect "t" self) as (_ & _ & _ & H4).
  split; [exact H2|]. apply H4. vm_compute. reflexivity.
Defined.

Lemma filter_two_le {A} (f g : A → bool) (l : list A) :
  (∀ x, f x = true → g x = false) →
  (length (List.filter f l) + length (List.filter g l) ≤ length l)%nat.
Proof.
  intros Hfg. induction l as [|x l IH]; simpl; [done|].
  destruct (f x) eqn:Ef; [rewrite (Hfg x Ef)|destruct (g x)]; simpl; lia.
Qed.

Lemma filter_two_all {A} (f g : A → bool) (l : list A) :
  (∀ x, f x = true → g x = false) →
  Forall (λ x, f x = true ∨ g x = true) l →
  (length (List.filter f l) + length (List.filter g l) = length l)%nat.
Proof.
  intros Hfg. induction 1 as [|x l [Hx|Hx] _ IH]; simpl; [done| |].
  - rewrite Hx, (Hfg x Hx). simpl. lia.
  - rewrite Hx. destruct (f x) eqn:Ef; [by rewrite (Hfg x Ef) in Hx|].
    simpl. lia.
Qed.

(** X25. [get_session_stats] answers with nothing for an unknown session,
    even when the identifier is well formed; for a known one the user and
    assistant counts never add up to more than the total, and add up to it
    when every stored message has one of these two roles. *)
Theorem session_stats_counts sid self :
  (sessions self !! sid = None → (get_session_stats sid self).1 = None)
  ∧ (∀ s, sessions self !! sid = Some s →
       ∃ st, (get_session_stats sid self).1 = Some st
             ∧ total_messages st = llen (stored sid self)
             ∧ user_messages st + assistant_messages st ≤ total_messages st
             ∧ (Forall (λ m, role m = "user" ∨ role m = "assistant")
                       (stored sid self)
                → user_messages st + assistant_messages st = total_messages st)
             ∧ stats_is_active st = is_active s)
  ∧ (get_session_stats sid self).2 = self.
Proof.
  unfold get_session_stats. split; [|split].
  - by intros ->.
  - intros s ->. eexists. split; [reflexivity|]. simpl.
    fold (stored sid self).
    assert (Hdisj : ∀ m, String.eqb (role m) "user" = true
                         → String.eqb (role m) "assistant" = false).
    { intros m Hu. apply String.eqb_eq in Hu. by rewrite Hu. }
    split; [done|]. split; [|split; [|done]].
    + pose proof (filter_two_le _ _ (stored sid self) Hdisj). unfold llen. lia.
    + intros Hall.
      pose proof (filter_two_all _ _ (stored sid self) Hdisj) as Heq.
      unfold llen. rewrite <- Heq; [lia|].
      eapply Forall_impl; [exact Hall|].
      intros m [->| ->]; [by left|by right].
  - by destruct (sessions self !! sid).
Qed.

Lemma session_stats_counts_example :
  let self1 := (add_message Config.settings (λ _, 0) "s" "user" "hi" None init).1 in
  let self2 := (add_message Config.settings (λ _, 0) "s" "system" "note" None
                  self1).1 in
  (get_session_stats "nobody" self2).1 = None
  ∧ (total_messages <$> (get_session_stats "s" self2).1) = Some 2
  ∧ (user_messages <$> (get_session_stats "s" self2).1) = Some 1
  ∧ (assistant_messages <$> (get_session_stats "s" self2).1) = Some 0.
Proof.
  intros self1 self2.
  split; [|by repeat split].
  apply (proj1 (session_stats_counts "nobody" self2)). vm_compute. reflexivity.
Defined.

(** X26. A message keeps its session alive: a sweep whose clock reading is
    no more than the timeout past the [last_activity] that [add_message]
    has just set removes neither the session nor its history. *)
Theorem add_message_defers_expiry
    cfg now sid role_ content_ metadata_ self sweep_time :
  sweep_time - now 3%nat ≤ minutes (Config.SESSION_TIMEOUT_MINUTES cfg) →
  let after := (add_message cfg now sid role_ content_ metadata_ self).1 in
  let swept := (cleanup_expired_sessions cfg sweep_time after).1.2 in
  is_Some (sessions swept !! sid)
  ∧ sessions swept !! sid = sessions after !! sid
  ∧ message_history swept !! sid = message_history after !! sid.
Proof.
  intros Hfresh after swept.
  destruct (add_message_sessions cfg now sid role_ content_ metadata_ self)
    as [Hs _]. fold after in Hs.
  assert (Hnot : sid ∉ expired_sessions cfg sweep_time after).
  { intros (s & Hsid & Hexp)%elem_of_expired_sessions.
    rewrite Hs in Hsid. unfold expired in Hexp. apply Z.gtb_lt in Hexp.
    destruct (sessions self !! sid); simplify_eq; simpl in Hexp; lia. }
  unfold swept, cleanup_expired_sessions. simpl.
  rewrite remove_all_sessions, remove_all_history, !decide_False by done.
  rewrite Hs. eauto.
Qed.

Lemma add_message_defers_expiry_example :
  let after := (add_message Config.settings (λ _, 100) "s" "user" "hi" None
                  init).1 in
  let swept := (cleanup_expired_sessions Config.settings (minutes 30 + 100)
                  after).1.2 in
  is_Some (sessions swept !! "s")
  ∧ (map content <$> message_history swept !! "s") = Some ["hi"].
Proof.
  intros after swept.
  destruct (add_message_defers_expiry Config.settings (λ _, 100) "s" "user"
              "hi" None init (minutes 30 + 100)) as (H1 & _ & H3).
  - vm_compute. discriminate.
  - fold after in H1, H3. fold swept in H1, H3.
    split; [exact H1|]. rewrite H3. reflexivity.
Defined.

End StatsAndExpiry.

(** ** The chat handler *)

Section ChatHandler.
Import Py ConversationMemory Aux.

Variable search :
  string → Z → option (gmap string pyval)
  → RAGEngine.outcome RAGEngine.search_result.
Variable generate_response :
  string → string → option (list (string * string))
  → RAGEngine.outcome RAGEngine.claude_response.
Variable fresh : string.
Variables now_create now_user now_assistant : nat → Z.
Variables start_time end_time : Q.
Variable flatten : list RAGEngine.source_info → Z * Z → gmap string pyval.

Local Abbreviation chat :=
  (Main.chat search generate_response fresh now_create now_user now_assistant
     start_time end_time flatten).
Local Abbreviation resolve := (Main.resolve_session fresh now_create).

Lemma formatted_history_spec sid limit self :
  (get_formatted_history sid limit self).1
  = map (λ msg, (role msg, content msg)) (get_history sid limit self).1
  ∧ (get_formatted_history sid limit self).2 = self.
Proof.
  unfold get_formatted_history.
  pose proof (proj1 (reads_leave_memory sid limit self)) as Hsame.
  destruct (get_history sid limit self) as [h self']. simpl in *.
  split; [|done].
  by rewrite (fold_left_snoc _ (λ msg, (role msg, content msg))).
Qed.

Lemma chat_unfold cfg request self :
  let sid := (resolve request self).1.1 in
  let self1 := (resolve request self).1.2 in
  let self3 := (add_message cfg now_user sid "user" (Main.message request)
                  None self1).1 in
  let run := RAGEngine.query search generate_response start_time end_time cfg
               (Main.message request) (Some (prior_turns sid self1)) None None in
  (chat cfg request self).1
  = match run.1 with
    | RAGEngine.Raise e =>
        (inr {| Main.status_code := 500;
                Main.detail := RAGEngine.exc_message e |}, self3)
    | RAGEngine.Return result =>
        (inl {| Main.reply_message := RAGEngine.answer result;
                Main.reply_session_id := sid;
                Main.reply_sources := RAGEngine.sources result;
                Main.reply_confidence := RAGEngine.confidence result;
                Main.response_time := RAGEngine.response_time result;
                Main.chunks_retrieved := RAGEngine.retrieved_chunks result;
                Main.reply_model := RAGEngine.model_used result |},
         (add_message cfg now_assistant sid "assistant"
            (RAGEngine.answer result)
            (Some (flatten (RAGEngine.sources result)
                           (RAGEngine.tokens_used result)))
            self3).1)
    end.
Proof.
  intros sid self1 self3 run. subst sid self1 self3 run.
  unfold Main.chat, prior_turns.
  destruct (resolve request self) as [[sid self1] log1]. cbn [fst snd].
  destruct (formatted_history_spec sid (Some 10) self1) as [Hh Hs].
  destruct (get_formatted_history sid (Some 10) self1) as [history self2].
  cbn [fst snd] in Hh, Hs. subst self2.
  rewrite (proj1 (get_history_last sid 10 self1 eq_refl)) in Hh.
  change (Z.to_nat 10) with 10%nat in Hh. subst history.
  destruct (add_message cfg now_user sid "user" (Main.message request) None self1)
    as [self3 log3]. cbn [fst snd].
  destruct (RAGEngine.query _ _ _ _ _ _ _ _ _) as [[result|e] logq];
    cbn [fst snd].
  - by destruct (add_message _ _ _ _ _ _ self3).
  - done.
Qed.

(** X27. The handler serves a request in the session it names only when
    that identifier is non-empty and known; otherwise it creates a session
    under a new identifier and does not file the unknown one. Either way
    the session it serves in has a record, and no history is touched. *)
Theorem resolve_session_spec request self :
  let sid := (Main.resolve_session fresh now_create request self).1.1 in
  let self1 := (Main.resolve_session fresh now_create request self).1.2 in
  is_Some (sessions self1 !! sid)
  ∧ message_history self1 = message_history self
  ∧ ((Main.session_id request = Some sid ∧ sid ≠ ""
      ∧ is_Some (sessions self !! sid) ∧ self1 = self)
     ∨ (sid = fresh
        ∧ (∀ named, Main.session_id request = Some named →
             named = "" ∨ sessions self !! named = None)
        ∧ ∀ other, other ≠ fresh →
            sessions self1 !! other = sessions self !! other)).
Proof.
  intros sid self1. subst sid self1. unfold Main.resolve_session.
  assert (Hnew : ∀ uid,
    let r := create_session fresh now_create uid self in
    is_Some (sessions r.1.2 !! r.1.1)
    ∧ message_history r.1.2 = message_history self
    ∧ r.1.1 = fresh
    ∧ ∀ other, other ≠ fresh → sessions r.1.2 !! other = sessions self !! other).
  { intros uid. simpl. rewrite lookup_insert_eq. repeat split; eauto.
    intros other Hne. by rewrite lookup_insert_ne. }
  destruct (Main.session_id request) as [named|] eqn:Hid.
  - destruct (truthy named) eqn:Ht.
    + simpl. destruct (sessions self !! named) as [s|] eqn:Hs; simpl.
      * rewrite Hs. split; [eauto|]. split; [done|]. left.
        repeat split; eauto. intros ->. done.
      * destruct (Hnew (Main.user_id request)) as (H1 & H2 & H3 & H4).
        simpl in *. split; [done|]. split; [done|]. right.
        repeat split; try done. intros ? [= <-]. by right.
    + destruct (Hnew (Main.user_id request)) as (H1 & H2 & H3 & H4).
      simpl in *. split; [done|]. split; [done|]. right.
      repeat split; try done. intros ? [= <-]. left. by destruct named.
  - destruct (Hnew (Main.user_id request)) as (H1 & H2 & H3 & H4).
    simpl in *. split; [done|]. split; [done|]. right.
    repeat split; done.
Qed.

(** X28. When the engine raises [e], the handler answers with HTTP status
    500 and [str(e)] as detail, and the user's message has already been
    stored: the session's history ends with it and holds no assistant
    message for it; other histories are as before. *)
Theorem chat_failure_keeps_user_message cfg request self e :
  let sid := (resolve request self).1.1 in
  let self1 := (resolve request self).1.2 in
  (RAGEngine.query search generate_response start_time end_time cfg
     (Main.message request) (Some (prior_turns sid self1)) None None).1
  = RAGEngine.Raise e →
  (chat cfg request self).1.1
  = inr {| Main.status_code := 500; Main.detail := RAGEngine.exc_message e |}
  ∧ stored sid (chat cfg request self).1.2
    = trim (Config.MAX_CONVERSATION_HISTORY cfg)
        (stored sid self1
         ++ [message_of {| a_now := now_user; a_role := "user";
                           a_content := Main.message request;
                           a_metadata := None |}])
  ∧ ∀ other, sid ≠ other →
      message_history (chat cfg request self).1.2 !! other
      = message_history self1 !! other.
Proof.
  intros sid self1 Hq. rewrite (chat_unfold cfg request self).
  fold sid self1. rewrite Hq. cbn [fst snd].
  split; [done|]. split.
  - apply add_message_stored.
  - intros other Hne. by apply add_message_stored_other.
Qed.

(** X29. When the engine returns, it was given the session's last ten
    stored turns without the new message, the answer carries the serving
    session's identifier, and with [MAX_CONVERSATION_HISTORY = N >= 1] the
    session's history afterwards is the last [2N] of what was stored
    before followed by the user's message and the assistant's answer. *)
Theorem chat_success_stores_both_turns cfg request self result :
  let sid := (resolve request self).1.1 in
  let self1 := (resolve request self).1.2 in
  1 ≤ Config.MAX_CONVERSATION_HISTORY cfg →
  (RAGEngine.query search generate_response start_time end_time cfg
     (Main.message request) (Some (prior_turns sid self1)) None None).1
  = RAGEngine.Return result →
  (∃ reply, (chat cfg request self).1.1 = inl reply
            ∧ Main.reply_message reply = RAGEngine.answer result
            ∧ Main.reply_session_id reply = sid
            ∧ Main.reply_confidence reply = RAGEngine.confidence result)
  ∧ stored sid (chat cfg request self).1.2
    = lastn (Z.to_nat (2 * Config.MAX_CONVERSATION_HISTORY cfg))
        (stored sid self1
         ++ [message_of {| a_now := now_user; a_role := "user";
                           a_content := Main.message request;
                           a_metadata := None |};
             message_of {| a_now := now_assistant; a_role := "assistant";
                           a_content := RAGEngine.answer result;
                           a_metadata :=
                             Some (flatten (RAGEngine.sources result)
                                           (RAGEngine.tokens_used result)) |}]).
Proof.
  intros sid self1 Hn Hq. rewrite (chat_unfold cfg request self).
  fold sid self1. rewrite Hq. cbn [fst snd].
  split; [eexists; split; [reflexivity|done]|].
  rewrite !add_message_stored, !trim_spec by done.
  rewrite lastn_snoc by lia. by rewrite <- app_assoc.
Qed.

End ChatHandler.

(** ** The chat handler on a fresh memory *)

Section ChatExamples.
Import Py ConversationMemory Aux.

Lemma resolve_session_spec_example :
  let request := {| Main.message := "hi"; Main.session_id := Some "ghost";
                    Main.user_id := None |} in
  let r := Main.resolve_session "new" (λ _, 0) request init in
  r.1.1 = "new"
  ∧ is_Some (sessions r.1.2 !! "new")
  ∧ sessions r.1.2 !! "ghost" = None.
Proof.
  intros request r.
  destruct (resolve_session_spec "new" (λ _, 0) request init)
    as (H1 & _ & [(Hid & _ & [s Hs] & _)|(Hfresh & _ & Hother)]).
  - change (sessions init) with (∅ : gmap string session) in Hs.
    by rewrite lookup_empty in Hs.
  - fold r in H1, Hfresh, Hother. split; [exact Hfresh|].
    split; [by rewrite <- Hfresh|].
    rewrite (Hother "ghost") by done. reflexivity.
Defined.

Lemma chat_failure_keeps_user_message_example :
  let e := {| RAGEngine.exc_class := "ConnectionError";
              RAGEngine.exc_message := "index unreachable" |} in
  let request := {| Main.message := "hi"; Main.session_id := None;
                    Main.user_id := None |} in
  let out := Main.chat (λ _ _ _, RAGEngine.Raise e)
               (λ _ _ _, RAGEngine.Raise e) "new" (λ _, 0) (λ _, 1) (λ _, 2)
               0 1 (λ _ _, ∅) Config.settings request init in
  out.1.1 = inr {| Main.status_code := 500;
                   Main.detail := "index unreachable" |}
  ∧ map content (stored "new" out.1.2) = ["hi"].
Proof.
  intros e request out.
  destruct (chat_failure_keeps_user_message (λ _ _ _, RAGEngine.Raise e)
              (λ _ _ _, RAGEngine.Raise e) "new" (λ _, 0) (λ _, 1) (λ _, 2)
              0 1 (λ _ _, ∅) Config.settings request init e eq_refl)
    as (H1 & H2 & _).
  split; [exact H1|].
  change (stored "new" out.1.2
          = trim 10 ([] ++ [message_of {| a_now := λ _, 1; a_role := "user";
                                          a_content := "hi";
                                          a_metadata := None |}])) in H2.
  rewrite H2. reflexivity.
Defined.

Lemma chat_success_stores_both_turns_example :
  let found := {| RAGEngine.results := [hit_at "a.txt" "one" (1 # 10)];
                  RAGEngine.sr_query := "hi"; RAGEngine.sr_total := 1 |} in
  let reply := {| RAGEngine.response := "hello"; RAGEngine.model := "m";
                  RAGEngine.usage := (3, 2);
                  RAGEngine.stop_reason := "end_turn" |} in
  let request := {| Main.message := "hi"; Main.session_id := None;
                    Main.user_id := None |} in
  let out := Main.chat (λ _ _ _, RAGEngine.Return found)
               (λ _ _ _, RAGEngine.Return reply) "new" (λ _, 0) (λ _, 1)
               (λ _, 2) 0 1 (λ _ _, ∅) Config.settings request init in
  (∃ r, out.1.1 = inl r ∧ Main.reply_message r = "hello")
  ∧ map (λ m, (role m, content m)) (stored "new" out.1.2)
    = [("user", "hi"); ("assistant", "hello")].
Proof.
  intros found reply request out.
  pose (result := {| RAGEngine.answer := "hello";
                     RAGEngine.sources := RAGEngine._format_sources
                                            (RAGEngine.results found);
                     RAGEngine.retrieved_chunks := 1;
                     RAGEngine.response_time := RAGEngine.round2 (1 - 0);
                     RAGEngine.model_used := "m";
                     RAGEngine.tokens_used := (3, 2);
                     RAGEngine.confidence :=
                       RAGEngine._calculate_confidence
                         (RAGEngine.results found) |}).
  destruct (chat_success_stores_both_turns (λ _ _ _, RAGEngine.Return found)
              (λ _ _ _, RAGEngine.Return reply) "new" (λ _, 0) (λ _, 1)
              (λ _, 2) 0 1 (λ _ _, ∅) Config.settings request init result)
    as ((r & Hr & Hm & _) & H2).
  - vm_compute. discriminate.
  - reflexivity.
  - fold out in Hr, H2. split.
    + exists r. split; [exact Hr|exact Hm].
    + exact (eq_trans (f_equal (map (λ m, (role m, content m))) H2) eq_refl).
Defined.

End ChatExamples.
